(** * Post controller of the threads backend: model and verified properties

    Shallow embedding of [src/controllers/postController.js].  The Express
    handlers are asynchronous functions over three collaborators: the
    [User] and [Post] Mongoose models and the Cloudinary uploader.  Here a
    handler is a function in a small state-and-exception monad over a
    [World] (the two collections plus the trace of the writes and blob
    calls issued so far); the [try { ... } catch (err)] wrapper of every
    handler turns a rejected await into the 500 response.

    ObjectIds are modelled by their [toString()] form, which is how the
    controller compares them; identifiers are taken to be well formed, so
    no cast of an identifier fails.  The two collections always answer;
    only the blob store can reject a call.  Each handler runs to completion
    on the world it is given: requests are not interleaved. *)

From Stdlib Require Import ZArith String Ascii List Sorted Permutation Lia.
From stdpp Require Import gmap strings list fin_maps sorting stringmap.

Local Open Scope string_scope.

(** ** Documents *)

(** A user document, as far as the controller reads it. The [_id] of a
    stored document is its key in the collection. *)
Module User.
Record t := mk {
  username : string;
  profilePicture : string;
  following : list string
}.
End User.

(** Modelled from the spec: the reply sub-schema of models/postModel.js,
    which lies outside the controller source.  A reply carries the four
    paths the controller fills in and a [createdAt] that the store assigns
    when the reply is inserted into the array (spec, data model: "createdAt:
    system-assigned at insertion"). *)
Module Reply.
Record t := mk {
  userId : string;
  text : string;
  userProfilePic : string;
  username : string;
  createdAt : Z
}.
End Reply.

(** Modelled from the spec: the post schema of models/postModel.js.  [img]
    is optional; [likes] and [replies] are arrays (order and duplicates are
    observable by [push], [includes], [$pull], [unshift] and [sort]);
    [createdAt] is a millisecond timestamp.  The [updatedAt] stamp and the
    version counter that the store rewrites on every write are left out. *)
Module Post.
Record t := mk {
  postedBy : string;
  text : string;
  img : option string;
  likes : list string;
  replies : list Reply.t;
  createdAt : Z
}.

Definition set_likes (l : list string) (p : t) : t :=
  mk (postedBy p) (text p) (img p) l (replies p) (createdAt p).

Definition set_replies (r : list Reply.t) (p : t) : t :=
  mk (postedBy p) (text p) (img p) (likes p) r (createdAt p).
End Post.

(** ** Requests and responses *)

Module Req.
(** [req.user], attached by the route protection middleware. *)
Record user_t := mkUser {
  _id : string;
  username : string;
  profilePicture : string
}.

(** [req.body]: a field that the JSON body does not define is [None]. *)
Record body_t := mkBody {
  postedBy : option string;
  text : option string;
  img : option string
}.

Record t := mk {
  user : user_t;
  params_id : string;
  body : body_t
}.
End Req.

(** The values of a plain JavaScript object, and the object as its list of
    own properties. *)
Inductive JsVal :=
| VString (s : string)
| VObjectId (hex : string)
| VDate (ms : Z).

Definition JsObject := list (string * JsVal).

Fixpoint prop (k : string) (o : JsObject) : option JsVal :=
  match o with
  | [] => None
  | (k', v) :: o' => if String.eqb k k' then Some v else prop k o'
  end.

(** What [res.json] is given. *)
Inductive Json :=
| JError (error : string)
| JMessage (message : string)
| JPost (id : string) (post : Post.t)
| JPosts (posts : list (string * Post.t))
| JObject (o : JsObject).

Record Response := mkResponse { status : nat; json : Json }.

(** The error kinds of the specification and the status code each one is
    reported with. *)
Inductive ErrorKind := InvalidInput | NotFound | Unauthorized | StorageError.

Definition error_kind (r : Response) : option ErrorKind :=
  match status r with
  | 400 => Some InvalidInput
  | 401 => Some Unauthorized
  | 404 => Some NotFound
  | 500 => Some StorageError
  | _ => None
  end.

Definition succeeded (r : Response) : Prop := error_kind r = None.

(** ** The world and the handler monad *)

(** Writes to the post collection and calls to the blob store, in the
    order in which a handler issues them. *)
Inductive Effect :=
| CloudUpload (file : string)
| CloudDestroy (public_id : string)
| PostSave (id : string)
| PostUpdate (id : string)
| PostDelete (id : string).

Record World := mkWorld {
  users : gmap string User.t;
  posts : gmap string Post.t;
  trace : list Effect
}.

Definition set_posts (ps : gmap string Post.t) (w : World) : World :=
  mkWorld (users w) ps (trace w).

Definition emit (e : Effect) (w : World) : World :=
  mkWorld (users w) (posts w) (trace w ++ [e]).

(** The outcome of an awaited promise. *)
Inductive Awaited (A : Type) :=
| Fulfilled (a : A)
| Rejected (message : string).
Arguments Fulfilled {A} a.
Arguments Rejected {A} message.

Definition M (A : Type) : Type := World -> World * Awaited A.

Definition ret {A} (a : A) : M A := fun w => (w, Fulfilled a).

Definition bind {A B} (k : A -> M B) (m : M A) : M B :=
  fun w =>
    match m w with
    | (w', Fulfilled a) => k a w'
    | (w', Rejected msg) => (w', Rejected msg)
    end.

#[global] Instance M_ret : MRet M := @ret.
#[global] Instance M_bind : MBind M := @bind.

(** [res.status(code).json(body)] *)
Definition respond (code : nat) (body : Json) : M Response :=
  mret (mkResponse code body).

(** [try { body } catch (err) { res.status(500).json({ error: err.message }) }] *)
Definition try_catch (body : M Response) (w : World) : World * Response :=
  match body w with
  | (w', Fulfilled r) => (w', r)
  | (w', Rejected msg) => (w', mkResponse 500 (JError msg))
  end.

(** ** JavaScript helpers *)

(** [!s] is false exactly for a defined, non-empty string. *)
Definition truthy (s : option string) : bool :=
  match s with
  | Some (String _ _) => true
  | _ => false
  end.

(** [s.split(sep)] for a one-character separator: never the empty array. *)
Fixpoint split (sep : ascii) (s : string) : list string :=
  match s with
  | EmptyString => [EmptyString]
  | String c s' =>
      if Ascii.eqb c sep then EmptyString :: split sep s'
      else match split sep s' with
           | h :: t => String c h :: t
           | [] => [String c EmptyString]
           end
  end.

(** [post.img.split('/').pop().split('.')[0]] *)
Definition imgId (url : string) : string :=
  hd EmptyString (split "." (List.last (split "/" url) EmptyString)).

(** [Array.prototype.sort(cmp)]: a stable sort; [cmp a b > 0] asks for [a]
    after [b].  For a comparator that is a difference of keys every stable
    sort returns the same array, computed here by insertion. *)
Fixpoint insert_by {A} (cmp : A -> A -> Z) (x : A) (l : list A) : list A :=
  match l with
  | [] => [x]
  | y :: l' => if (0 <? cmp x y)%Z then y :: insert_by cmp x l' else x :: l
  end.

Definition js_sort {A} (cmp : A -> A -> Z) (l : list A) : list A :=
  foldr (insert_by cmp) [] l.
Arguments js_sort {A} cmp l : simpl never.

(** [(a, b) => b.createdAt - a.createdAt] *)
Definition newest_first (a b : Reply.t) : Z :=
  (Reply.createdAt b - Reply.createdAt a)%Z.

(** The order asked for by [.sort({ createdAt: -1 })] on a post query. *)
Definition createdAt_desc (a b : string * Post.t) : Z :=
  (Post.createdAt b.2 - Post.createdAt a.2)%Z.

(** ** The collaborators *)

(** [User.findById(id)] for an identifier that casts to an ObjectId: the
    document together with its [_id].  The cast error that a malformed
    identifier raises is not modelled. *)
Definition User_findById (id : string) : M (option (string * User.t)) :=
  fun w => (w, Fulfilled ((fun u => (id, u)) <$> users w !! id)).

(** [Post.findById(id)] for an identifier that casts to an ObjectId.  The
    cast error that a malformed identifier raises is not modelled. *)
Definition Post_findById (id : string) : M (option Post.t) :=
  fun w => (w, Fulfilled (posts w !! id)).

(** [doc.save()]: writes the whole document under its [_id]. *)
Definition Post_save (id : string) (p : Post.t) : M unit :=
  fun w => (emit (PostSave id) (set_posts (<[id := p]> (posts w)) w), Fulfilled tt).

(** [Post.findByIdAndDelete(id)] *)
Definition Post_findByIdAndDelete (id : string) : M unit :=
  fun w => (emit (PostDelete id) (set_posts (delete id (posts w)) w), Fulfilled tt).

(** [$pull]: removes every element equal to [x]. *)
Definition pull (x : string) (l : list string) : list string :=
  filter (fun y => y <> x) l.

(** [Post.updateOne({ _id: id }, { $pull: { likes: userId } })] *)
Definition Post_updateOne_pull_likes (id userId : string) : M unit :=
  fun w =>
    (emit (PostUpdate id)
       (set_posts (alter (fun p => Post.set_likes (pull userId (Post.likes p)) p) id (posts w)) w),
     Fulfilled tt).

(** [Post.find({ postedBy: { $in: owners } }).sort({ createdAt: -1 })] *)
Definition Post_find_postedBy_in (owners : list string) : M (list (string * Post.t)) :=
  fun w =>
    (w, Fulfilled
          (js_sort createdAt_desc
             (filter (fun d => Post.postedBy d.2 ∈ owners)
                (map_to_list (posts w))))).

(** Modelled from the spec: the [Post] constructor of models/postModel.js,
    which lies outside the controller source.  A new document takes the
    three fields it is given, starts with no likes and no replies, and is
    stamped with the time of its creation. *)
Definition new_Post (now : Z) (postedBy text : string) (img : option string) : Post.t :=
  Post.mk postedBy text img [] [] now.

(** The [_id] that the constructor draws: an ObjectId no stored post has. *)
Definition new_ObjectId : M string :=
  fun w => (w, Fulfilled (fresh_string "post" (posts w))).

Definition str_prop (k : string) (o : JsObject) : string :=
  match prop k o with
  | Some (VString s) => s
  | Some (VObjectId s) => s
  | _ => EmptyString
  end.

(** Modelled from the spec: the cast that the reply sub-schema of
    models/postModel.js applies to a plain object entering
    [post.replies].  It builds a new subdocument from the four declared
    paths and stamps it with the insertion time; the plain object itself
    is left as it was. *)
Definition castReply (now : Z) (o : JsObject) : Reply.t :=
  Reply.mk (str_prop "userId" o) (str_prop "text" o)
    (str_prop "userProfilePic" o) (str_prop "username" o) now.

(** [{ userId, text, userProfilePic, username }] *)
Definition reply_object (userId text userProfilePic username : string) : JsObject :=
  [("userId", VObjectId userId); ("text", VString text);
   ("userProfilePic", VString userProfilePic); ("username", VString username)].

(** ** The handlers *)

Section Controller.

(** The blob store is outside the program: what [cloudinary.uploader]
    answers is left open.  [upload] fulfils with the [secure_url] of the
    stored image, [destroy] with nothing of interest. *)
Variable upload : string -> Awaited string.
Variable destroy : string -> Awaited unit.

Definition cloudinary_upload (file : string) : M string :=
  fun w => (emit (CloudUpload file) w, upload file).

Definition cloudinary_destroy (public_id : string) : M unit :=
  fun w => (emit (CloudDestroy public_id) w, destroy public_id).

Definition maxLength : nat := 500.

Definition createPost (now : Z) (req : Req.t) : World -> World * Response :=
  try_catch (
    let postedBy := Req.postedBy (Req.body req) in
    let text := Req.text (Req.body req) in
    let img := Req.img (Req.body req) in
    if negb (truthy postedBy) || negb (truthy text) then
      respond 400 (JError "Please fill all the fields")
    else
      let postedBy := default EmptyString postedBy in
      let text := default EmptyString text in
      user ← User_findById postedBy;
      match user with
      | None => respond 404 (JError "User not found")
      | Some user =>
          if negb (String.eqb user.1 (Req._id (Req.user req))) then
            respond 401 (JError "Unauthorized to create post")
          else if Nat.ltb maxLength (String.length text) then
            respond 400 (JError "Text length should be less than 500 characters")
          else
            img ← (if truthy img then
                     secure_url ← cloudinary_upload (default EmptyString img);
                     mret (Some secure_url)
                   else mret img);
            id ← new_ObjectId;
            let newPost := new_Post now postedBy text img in
            Post_save id newPost;;
            respond 201 (JPost id newPost)
      end).

Definition getPost (req : Req.t) : World -> World * Response :=
  try_catch (
    post ← Post_findById (Req.params_id req);
    match post with
    | None => respond 404 (JError "Post not found")
    | Some post => respond 200 (JPost (Req.params_id req) post)
    end).

Definition deletePost (req : Req.t) : World -> World * Response :=
  try_catch (
    let id := Req.params_id req in
    post ← Post_findById id;
    match post with
    | None => respond 404 (JError "Post not found")
    | Some post =>
        if negb (String.eqb (Post.postedBy post) (Req._id (Req.user req))) then
          respond 401 (JError "Unauthorized to delete post")
        else
          (if truthy (Post.img post) then
             cloudinary_destroy (imgId (default EmptyString (Post.img post)))
           else mret tt);;
          Post_findByIdAndDelete id;;
          respond 200 (JMessage "Post deleted successfully")
    end).

Definition likeUnlikePost (req : Req.t) : World -> World * Response :=
  try_catch (
    let postId := Req.params_id req in
    let userId := Req._id (Req.user req) in
    post ← Post_findById postId;
    match post with
    | None => respond 404 (JError "Post not found")
    | Some post =>
        let userLikedPost := bool_decide (userId ∈ Post.likes post) in
        if userLikedPost then
          Post_updateOne_pull_likes postId userId;;
          respond 200 (JMessage "Post unliked successfully")
        else
          Post_save postId (Post.set_likes (Post.likes post ++ [userId]) post);;
          respond 200 (JMessage "Post liked successfully")
    end).

Definition replyToPost (now : Z) (req : Req.t) : World -> World * Response :=
  try_catch (
    let text := Req.text (Req.body req) in
    let postId := Req.params_id req in
    let userId := Req._id (Req.user req) in
    let userProfilePic := Req.profilePicture (Req.user req) in
    let username := Req.username (Req.user req) in
    if negb (truthy text) then
      respond 400 (JError "Text cannot be empty")
    else
      let text := default EmptyString text in
      post ← Post_findById postId;
      match post with
      | None => respond 404 (JError "Post not found")
      | Some post =>
          let reply := reply_object userId text userProfilePic username in
          let unshifted := castReply now reply :: Post.replies post in
          let sorted := js_sort newest_first unshifted in
          Post_save postId (Post.set_replies sorted post);;
          respond 200 (JObject reply)
      end).

Definition getFeedPosts (req : Req.t) : World -> World * Response :=
  try_catch (
    let userId := Req._id (Req.user req) in
    user ← User_findById userId;
    match user with
    | None => respond 404 (JError "User not found")
    | Some user =>
        let following := User.following user.2 in
        feedPosts ← Post_find_postedBy_in following;
        respond 200 (JPosts feedPosts)
    end).

End Controller.

(** ** Sample worlds and requests

    Concrete data on which the statements below are exercised. *)

Definition sample_users : gmap string User.t :=
  {[ "u1" := User.mk "ann" "ann.png" ["u2"];
     "u2" := User.mk "bob" "bob.png" [];
     "u3" := User.mk "cat" EmptyString ["u1"; "u2"] ]}.

Definition sample_posts : gmap string Post.t :=
  {[ "p1" := Post.mk "u1" "hello" None [] [] 10;
     "p2" := Post.mk "u2" "look"
               (Some "https://res.cloudinary.com/demo/image/upload/v1/abc123.jpg")
               ["u1"] [] 20 ]}.

Definition sample_world : World := mkWorld sample_users sample_posts [].

Definition caller (id : string) : Req.user_t :=
  match sample_users !! id with
  | Some u => Req.mkUser id (User.username u) (User.profilePicture u)
  | None => Req.mkUser id EmptyString EmptyString
  end.

(** A request on post [id] by user [uid] that carries only a text. *)
Definition text_request (uid id text : string) : Req.t :=
  Req.mk (caller uid) id (Req.mkBody None (Some text) None).

(** A request on post [id] by user [uid] with an empty body. *)
Definition plain_request (uid id : string) : Req.t :=
  Req.mk (caller uid) id (Req.mkBody None None None).

(** A create request of [uid] in the name of [postedBy]. *)
Definition create_request (uid postedBy text : string) (img : option string) : Req.t :=
  Req.mk (caller uid) EmptyString (Req.mkBody (Some postedBy) (Some text) img).

(** A blob store that refuses the file or object named ["down"]. *)
Definition sample_upload (file : string) : Awaited string :=
  if String.eqb file "down" then Rejected "upload failed"
  else Fulfilled ("https://res.cloudinary.com/demo/image/upload/v1/" ++ file ++ ".jpg").

Definition sample_destroy (public_id : string) : Awaited unit :=
  if String.eqb public_id "down" then Rejected "destroy failed"
  else Fulfilled tt.

(** A text of [n] characters. *)
Definition text_of_length (n : nat) : string :=
  string_of_list_ascii (repeat "a"%char n).

(** Whether the character [c] occurs in [s]. *)
Fixpoint contains (c : ascii) (s : string) : bool :=
  match s with
  | EmptyString => false
  | String c' s' => Ascii.eqb c' c || contains c s'
  end.

(** Unfolds the monad and the collaborators of a handler. *)
Ltac run_handler :=
  unfold try_catch, respond, mbind, mret, M_bind, M_ret, bind, ret,
    User_findById, Post_findById, Post_save, Post_findByIdAndDelete,
    Post_updateOne_pull_likes, Post_find_postedBy_in, new_ObjectId,
    cloudinary_upload, cloudinary_destroy; simpl.

(** ** Sorting facts *)

(** Newest first: every element is at least as recent as all that follow. *)
Definition descending {A} (key : A -> Z) (l : list A) : Prop :=
  StronglySorted (fun a b => (key b <= key a)%Z) l.

(** ** The listing of one user and the controller as a whole *)

(** [User.findOne({ username })]: the first user of that name. *)
Definition User_findOne_username (username : string) : M (option (string * User.t)) :=
  fun w =>
    (w, Fulfilled
          (head (filter (fun d => User.username d.2 = username)
                   (map_to_list (users w))))).

(** [Post.find({ postedBy: owner }).sort({ createdAt: -1 })] *)
Definition Post_find_postedBy (owner : string) : M (list (string * Post.t)) :=
  fun w =>
    (w, Fulfilled
          (js_sort createdAt_desc
             (filter (fun d => Post.postedBy d.2 = owner)
                (map_to_list (posts w))))).

(** [getUserPosts] reads [req.params.username] and nothing else of the
    request. *)
Definition getUserPosts (username : string) : World -> World * Response :=
  try_catch (
    user ← User_findOne_username username;
    match user with
    | None => respond 404 (JError "User not found")
    | Some user =>
        posts ← Post_find_postedBy user.1;
        respond 200 (JPosts posts)
    end).

(** One call of a handler of the controller. *)
Inductive Call :=
| CreatePost (now : Z) (req : Req.t)
| GetPost (req : Req.t)
| DeletePost (req : Req.t)
| LikeUnlikePost (req : Req.t)
| ReplyToPost (now : Z) (req : Req.t)
| GetFeedPosts (req : Req.t)
| GetUserPosts (username : string).

Definition handle (upload : string -> Awaited string)
    (destroy : string -> Awaited unit) (c : Call) : World -> World * Response :=
  match c with
  | CreatePost now req => createPost upload now req
  | GetPost req => getPost req
  | DeletePost req => deletePost destroy req
  | LikeUnlikePost req => likeUnlikePost req
  | ReplyToPost now req => replyToPost now req
  | GetFeedPosts req => getFeedPosts req
  | GetUserPosts username => getUserPosts username
  end.

(** The world after a sequence of calls, served one after the other. *)
Fixpoint run (upload : string -> Awaited string)
    (destroy : string -> Awaited unit) (cs : list Call) (w : World) : World :=
  match cs with
  | [] => w
  | c :: cs' => run upload destroy cs' (handle upload destroy c w).1
  end.

(** The ways in which a call changes the collection of posts: not at all,
    by one new post of the caller under an unused identifier, by the
    removal of a post of the caller, by the caller entering or leaving the
    likes of a post, or by one more reply in a post. *)
Inductive Change (caller : string) (ps : gmap string Post.t) :
    gmap string Post.t -> Prop :=
| Unchanged : Change caller ps ps
| Created id text img now :
    ps !! id = None ->
    1 <= String.length text <= maxLength ->
    Change caller ps (<[id := Post.mk caller text img [] [] now]> ps)
| Deleted id post :
    ps !! id = Some post ->
    Post.postedBy post = caller ->
    Change caller ps (delete id ps)
| Liked id post :
    ps !! id = Some post ->
    caller ∉ Post.likes post ->
    Change caller ps
      (<[id := Post.set_likes (Post.likes post ++ [caller]) post]> ps)
| Unliked id post :
    ps !! id = Some post ->
    caller ∈ Post.likes post ->
    Change caller ps
      (<[id := Post.set_likes (pull caller (Post.likes post)) post]> ps)
| Replied id post reply :
    ps !! id = Some post ->
    Reply.userId reply = caller ->
    Reply.text reply <> EmptyString ->
    Change caller ps
      (<[id := Post.set_replies
                 (js_sort newest_first (reply :: Post.replies post)) post]> ps).

(** Who makes a call: [req.user._id]; the listing of a user is anonymous. *)
Definition caller_of (c : Call) : option string :=
  match c with
  | CreatePost _ req | GetPost req | DeletePost req | LikeUnlikePost req
  | ReplyToPost _ req | GetFeedPosts req => Some (Req._id (Req.user req))
  | GetUserPosts _ => None
  end.

(** What the data model asks of a stored post: likes without duplicates,
    replies newest first, a text of 1 to 500 characters. *)
Definition post_ok (p : Post.t) : Prop :=
  NoDup (Post.likes p) /\
  descending Reply.createdAt (Post.replies p) /\
  1 <= String.length (Post.text p) <= maxLength.

Definition world_ok (w : World) : Prop :=
  forall id p, posts w !! id = Some p -> post_ok p.

Definition empty_world (us : gmap string User.t) : World := mkWorld us ∅ [].

(** A post with two replies, the newer one first. *)
Definition sample_thread : World :=
  set_posts
    (<["p3" := Post.mk "u1" "thread" None ["u2"; "u3"]
                 [Reply.mk "u2" "later" "bob.png" "bob" 50;
                  Reply.mk "u3" "sooner" EmptyString "cat" 40] 30]> sample_posts)
    sample_world.

(** ** Identifiers sent by the client *)




(** ** [likeUnlikePost] at the grain of its awaits

    Between [await Post.findById] (line 105) and the awaited write (line
    117 or 123) another request can be served.  A request in flight holds
    the document it has read. *)

(** [post.likes.push(userId); await post.save()] as the store sees it:
    the save of a document whose only change is a push sends that push
    for the stored array, and rejects when the document is gone. *)
Definition Post_save_pushed_like (id userId : string) : M unit :=
  fun w =>
    match posts w !! id with
    | Some _ =>
        (emit (PostSave id)
           (set_posts
              (alter (fun p => Post.set_likes (Post.likes p ++ [userId]) p) id
                 (posts w)) w),
         Fulfilled tt)
    | None => (w, Rejected "No document found")
    end.

(** The first half of the handler: the read. *)
Definition likeUnlikePost_read (req : Req.t) : M (option Post.t) :=
  Post_findById (Req.params_id req).

(** The second half: the test on the document that was read, and the
    write. *)
Definition likeUnlikePost_write (req : Req.t) (post : option Post.t) :
    World -> World * Response :=
  try_catch (
    let postId := Req.params_id req in
    let userId := Req._id (Req.user req) in
    match post with
    | None => respond 404 (JError "Post not found")
    | Some post =>
        let userLikedPost := bool_decide (userId ∈ Post.likes post) in
        if userLikedPost then
          Post_updateOne_pull_likes postId userId;;
          respond 200 (JMessage "Post unliked successfully")
        else
          Post_save_pushed_like postId userId;;
          respond 200 (JMessage "Post liked successfully")
    end).

(** The document that a read hands to the rest of the handler. *)
Definition read_result (req : Req.t) (w : World) : option Post.t :=
  match likeUnlikePost_read req w with
  | (_, Fulfilled post) => post
  | (_, Rejected _) => None
  end.

(** Two requests whose reads are both served before either write. *)
Definition likeUnlikePost_interleaved (ra rb : Req.t) (w : World) :
    World * (Response * Response) :=
  let a := read_result ra w in
  let b := read_result rb w in
  let '(w1, resA) := likeUnlikePost_write ra a w in
  let '(w2, resB) := likeUnlikePost_write rb b w1 in
  (w2, (resA, resB)).

(** The outcomes of [createPost]: a refusal by one of the guards, a
    rejected upload, or a stored post. *)
Inductive CreateOutcome (upload : string -> Awaited string) (now : Z)
    (req : Req.t) (w : World) : World * Response -> Prop :=
| CreateRefused code msg :
    code = 400 \/ code = 401 \/ code = 404 ->
    CreateOutcome upload now req w (w, mkResponse code (JError msg))
| CreateUploadRejected raw msg :
    Req.img (Req.body req) = Some raw ->
    truthy (Some raw) = true ->
    upload raw = Rejected msg ->
    CreateOutcome upload now req w
      (emit (CloudUpload raw) w, mkResponse 500 (JError msg))
| CreateStored text img w0 :
    let id := fresh_string "post" (posts w) in
    let post := new_Post now (Req._id (Req.user req)) text img in
    Req.postedBy (Req.body req) = Some (Req._id (Req.user req)) ->
    Req.text (Req.body req) = Some text ->
    1 <= String.length text <= maxLength ->
    is_Some (users w !! Req._id (Req.user req)) ->
    (truthy (Req.img (Req.body req)) = false /\
     img = Req.img (Req.body req) /\ w0 = w) \/
    (exists raw url,
       Req.img (Req.body req) = Some raw /\ truthy (Some raw) = true /\
       upload raw = Fulfilled url /\
       img = Some url /\ w0 = emit (CloudUpload raw) w) ->
    CreateOutcome upload now req w
      (emit (PostSave id) (set_posts (<[id := post]> (posts w)) w0),
       mkResponse 201 (JPost id post)).

Lemma descending_fmap {A} (key : A -> Z) (l : list A) :
  descending key l -> descending id (key <$> l).
Proof.
  unfold descending.
  induction 1 as [|a l' _ IH Hall]; simpl; constructor; [done|].
  by apply Forall_fmap.
Qed.

Lemma descending_unique (l1 l2 : list Z) :
  descending id l1 -> descending id l2 -> l1 ≡ₚ l2 -> l1 = l2.
Proof.
  apply (StronglySorted_unique_strong (fun a b : Z => (b <= a)%Z)).
  intros a b _ _ ??. simpl in *. lia.
Qed.

Section Sorting.
Context {A : Type} (key : A -> Z) (cmp : A -> A -> Z).
Hypothesis cmp_key : forall a b, cmp a b = (key b - key a)%Z.

Lemma insert_by_Permutation (x : A) (l : list A) :
  insert_by cmp x l ≡ₚ x :: l.
Proof.
  induction l as [|y l IH]; simpl; [done|].
  destruct (0 <? cmp x y)%Z; [|done].
  rewrite IH. apply perm_swap.
Qed.

Lemma js_sort_Permutation (l : list A) : js_sort cmp l ≡ₚ l.
Proof.
  induction l as [|x l IH]; [done|].
  change (js_sort cmp (x :: l)) with (insert_by cmp x (js_sort cmp l)).
  by rewrite insert_by_Permutation, IH.
Qed.

Lemma insert_by_descending (x : A) (l : list A) :
  descending key l -> descending key (insert_by cmp x l).
Proof.
  unfold descending. induction l as [|y l IH]; simpl; intros Hl.
  - by repeat constructor.
  - apply StronglySorted_inv in Hl as [Hl Hy].
    destruct (0 <? cmp x y)%Z eqn:E.
    + apply Z.ltb_lt in E. rewrite cmp_key in E.
      constructor; [by apply IH|].
      rewrite insert_by_Permutation. constructor; [lia|done].
    + apply Z.ltb_ge in E. rewrite cmp_key in E.
      constructor; [by constructor|].
      constructor; [lia|].
      eapply Forall_impl; [exact Hy|]. simpl. intros z Hz. lia.
Qed.

Lemma js_sort_descending (l : list A) : descending key (js_sort cmp l).
Proof.
  induction l as [|x l IH]; [constructor|].
  change (js_sort cmp (x :: l)) with (insert_by cmp x (js_sort cmp l)).
  by apply insert_by_descending.
Qed.

Lemma js_sort_keys (l : list A) (ks : list Z) :
  key <$> l ≡ₚ ks -> descending id ks -> key <$> js_sort cmp l = ks.
Proof.
  intros Hp Hs.
  apply descending_unique; [|done|by rewrite js_sort_Permutation].
  apply descending_fmap, js_sort_descending.
Qed.

End Sorting.

Lemma newest_first_key (a b : Reply.t) :
  newest_first a b = (Reply.createdAt b - Reply.createdAt a)%Z.
Proof. reflexivity. Qed.

Lemma createdAt_desc_key (a b : string * Post.t) :
  createdAt_desc a b = (Post.createdAt b.2 - Post.createdAt a.2)%Z.
Proof. reflexivity. Qed.

(** ** Replies *)

Lemma truthy_Some (o : option string) :
  truthy o = true -> exists s, o = Some s /\ s <> EmptyString.
Proof. destruct o as [[|c s]|]; simpl; intros; try done. by eexists. Qed.

(** The stored result of a reply that passes both guards. *)
Lemma replyToPost_ok now req w post :
  truthy (Req.text (Req.body req)) = true ->
  posts w !! Req.params_id req = Some post ->
  let user := Req.user req in
  let reply :=
    reply_object (Req._id user) (default EmptyString (Req.text (Req.body req)))
      (Req.profilePicture user) (Req.username user) in
  let post' :=
    Post.set_replies
      (js_sort newest_first (castReply now reply :: Post.replies post)) post in
  replyToPost now req w =
    (emit (PostSave (Req.params_id req))
       (set_posts (<[Req.params_id req := post']> (posts w)) w),
     mkResponse 200 (JObject reply)).
Proof.
  intros Ht Hp. unfold replyToPost. rewrite Ht. run_handler.
  by rewrite Hp.
Qed.

Lemma replyToPost_lookup now req w post :
  truthy (Req.text (Req.body req)) = true ->
  posts w !! Req.params_id req = Some post ->
  exists post',
    posts (replyToPost now req w).1 !! Req.params_id req = Some post' /\
    Reply.createdAt <$> Post.replies post' ≡ₚ
      now :: (Reply.createdAt <$> Post.replies post) /\
    descending Reply.createdAt (Post.replies post').
Proof.
  intros Ht Hp. rewrite (replyToPost_ok _ _ _ _ Ht Hp). simpl.
  eexists. split; [apply lookup_insert_eq|]. simpl. split.
  - by rewrite (js_sort_Permutation newest_first), fmap_cons.
  - apply (js_sort_descending _ _ newest_first_key).
Qed.

(** C1. After [replyToPost] completes on an existing post, the replies of
    that post are sorted by [createdAt], newest first.  In particular three
    replies added one after the other to a post without replies, stamped
    with the times t1 < t2 < t3 in any order of insertion, leave the
    replies in the order t3, t2, t1. *)
Theorem replyToPost_replies_sorted :
  (forall now req w post,
     truthy (Req.text (Req.body req)) = true ->
     posts w !! Req.params_id req = Some post ->
     exists post',
       posts (replyToPost now req w).1 !! Req.params_id req = Some post' /\
       descending Reply.createdAt (Post.replies post')) /\
  (forall t1 t2 t3 ta tb tc ra rb rc w id post,
     (t1 < t2 < t3)%Z ->
     [ta; tb; tc] ≡ₚ [t1; t2; t3] ->
     Req.params_id ra = id -> Req.params_id rb = id -> Req.params_id rc = id ->
     truthy (Req.text (Req.body ra)) = true ->
     truthy (Req.text (Req.body rb)) = true ->
     truthy (Req.text (Req.body rc)) = true ->
     posts w !! id = Some post ->
     Post.replies post = [] ->
     let w1 := (replyToPost ta ra w).1 in
     let w2 := (replyToPost tb rb w1).1 in
     let w3 := (replyToPost tc rc w2).1 in
     exists post',
       posts w3 !! id = Some post' /\
       Reply.createdAt <$> Post.replies post' = [t3; t2; t1]).
Proof.
  split.
  - intros now req w post Ht Hp.
    destruct (replyToPost_lookup now req w post Ht Hp) as (post' & ? & _ & ?).
    by exists post'.
  - intros t1 t2 t3 ta tb tc ra rb rc w id post Hlt Hperm <- Hb Hc Hta Htb Htc Hp Hnil.
    intros w1 w2 w3.
    destruct (replyToPost_lookup ta ra w post Hta Hp) as (p1 & Hp1 & Hk1 & _).
    fold w1 in Hp1. rewrite <- Hb in Hp1.
    destruct (replyToPost_lookup tb rb w1 p1 Htb Hp1) as (p2 & Hp2 & Hk2 & _).
    fold w2 in Hp2. rewrite Hb, <- Hc in Hp2.
    destruct (replyToPost_lookup tc rc w2 p2 Htc Hp2) as (p3 & Hp3 & Hk3 & Hs3).
    fold w3 in Hp3. rewrite Hc in Hp3.
    exists p3. split; [done|].
    rewrite Hnil in Hk1. simpl in Hk1.
    assert (Hk : Reply.createdAt <$> Post.replies p3 ≡ₚ [t3; t2; t1]).
    { rewrite Hk3, Hk2, Hk1.
      transitivity [ta; tb; tc]; [solve_Permutation|].
      rewrite Hperm. solve_Permutation. }
    apply descending_unique; [by apply descending_fmap| |done].
    unfold descending. repeat constructor; simpl; lia.
Qed.

Lemma replyToPost_replies_sorted_witness :
  let ra := text_request "u2" "p1" "second" in
  let rb := text_request "u3" "p1" "third" in
  let rc := text_request "u1" "p1" "first" in
  let w3 := (replyToPost 3 rc (replyToPost 7 rb (replyToPost 5 ra sample_world).1).1).1 in
  (exists post',
     posts (replyToPost 5 ra sample_world).1 !! "p1" = Some post' /\
     descending Reply.createdAt (Post.replies post')) /\
  (exists post',
     posts w3 !! "p1" = Some post' /\
     Reply.createdAt <$> Post.replies post' = [7; 5; 3]%Z).
Proof.
  intros ra rb rc w3. split.
  - apply (proj1 replyToPost_replies_sorted 5%Z ra sample_world
             (Post.mk "u1" "hello" None [] [] 10)); reflexivity.
  - apply (proj2 replyToPost_replies_sorted 3 5 7 5 7 3 ra rb rc sample_world "p1"
             (Post.mk "u1" "hello" None [] [] 10))%Z;
      try reflexivity; [lia | solve_Permutation].
Defined.

(** C9 as stated fails: the reply that [replyToPost] answers with has no
    [createdAt]; the time stamp is on the stored reply only. *)
Lemma replyToPost_response_no_createdAt :
  let r := replyToPost 5 (text_request "u2" "p1" "hi") sample_world in
  status r.2 = 200 /\
  (exists o, json r.2 = JObject o /\ prop "createdAt" o = None) /\
  ~ (exists o t, json r.2 = JObject o /\ prop "createdAt" o = Some (VDate t)) /\
  Post.replies <$> posts r.1 !! "p1" = Some [Reply.mk "u2" "hi" "bob.png" "bob" 5].
Proof.
  vm_compute. split; [done|]. split; [by eexists|]. split; [|done].
  intros (o & t & [= <-] & [=]).
Qed.

(** C9, amended. For a reply request with a non-empty text on an existing
    post, [replyToPost] answers 200 with the plain object built from the
    request: its [userId], [username] and [userProfilePic] are those of the
    caller and its [text] is the text of the request.  That object has no
    [createdAt]; the reply stored in the post is the cast of that object and
    it is stamped with the time of insertion. *)
Theorem replyToPost_returns_reply_object now req w post :
  truthy (Req.text (Req.body req)) = true ->
  posts w !! Req.params_id req = Some post ->
  let r := replyToPost now req w in
  exists o,
    r.2 = mkResponse 200 (JObject o) /\
    prop "userId" o = Some (VObjectId (Req._id (Req.user req))) /\
    prop "username" o = Some (VString (Req.username (Req.user req))) /\
    prop "userProfilePic" o = Some (VString (Req.profilePicture (Req.user req))) /\
    prop "text" o = VString <$> Req.text (Req.body req) /\
    prop "createdAt" o = None /\
    exists post',
      posts r.1 !! Req.params_id req = Some post' /\
      castReply now o ∈ Post.replies post' /\
      Reply.createdAt (castReply now o) = now.
Proof.
  intros Ht Hp r. subst r. rewrite (replyToPost_ok _ _ _ _ Ht Hp).
  destruct (truthy_Some _ Ht) as (text & -> & _).
  eexists. split; [reflexivity|]. repeat (split; [reflexivity|]).
  eexists. split; [apply lookup_insert_eq|]. split; [|done].
  simpl. rewrite (js_sort_Permutation newest_first). by left.
Qed.

Lemma replyToPost_returns_reply_object_witness :
  let req := text_request "u2" "p1" "hi" in
  let r := replyToPost 5 req sample_world in
  exists o,
    r.2 = mkResponse 200 (JObject o) /\
    prop "userId" o = Some (VObjectId "u2") /\
    prop "username" o = Some (VString "bob") /\
    prop "userProfilePic" o = Some (VString "bob.png") /\
    prop "text" o = Some (VString "hi") /\
    prop "createdAt" o = None /\
    exists post',
      posts r.1 !! "p1" = Some post' /\
      castReply 5 o ∈ Post.replies post' /\
      Reply.createdAt (castReply 5 o) = 5%Z.
Proof.
  intros req r.
  apply (replyToPost_returns_reply_object 5 req sample_world
           (Post.mk "u1" "hello" None [] [] 10)); reflexivity.
Defined.

(** ** Likes *)

Lemma pull_not_elem (x : string) (l : list string) : x ∉ pull x l.
Proof. unfold pull. by intros [? _]%list_elem_of_filter. Qed.

Lemma pull_snoc (x : string) (l : list string) : x ∉ l -> pull x (l ++ [x]) = l.
Proof.
  intros Hx. unfold pull. rewrite filter_app.
  rewrite (filter_cons_False _ x []) by naive_solver.
  rewrite filter_nil, app_nil_r.
  induction l as [|y l IH]; [done|].
  apply not_elem_of_cons in Hx as [Hne Hx].
  rewrite filter_cons_True by done. by rewrite IH.
Qed.

Lemma likeUnlikePost_like req w post :
  posts w !! Req.params_id req = Some post ->
  Req._id (Req.user req) ∉ Post.likes post ->
  likeUnlikePost req w =
    (emit (PostSave (Req.params_id req))
       (set_posts
          (<[Req.params_id req :=
               Post.set_likes (Post.likes post ++ [Req._id (Req.user req)]) post]>
             (posts w)) w),
     mkResponse 200 (JMessage "Post liked successfully")).
Proof.
  intros Hp Hu. unfold likeUnlikePost. run_handler. rewrite Hp.
  by rewrite bool_decide_eq_false_2.
Qed.

Lemma likeUnlikePost_unlike req w post :
  posts w !! Req.params_id req = Some post ->
  Req._id (Req.user req) ∈ Post.likes post ->
  likeUnlikePost req w =
    (emit (PostUpdate (Req.params_id req))
       (set_posts
          (<[Req.params_id req :=
               Post.set_likes (pull (Req._id (Req.user req)) (Post.likes post)) post]>
             (posts w)) w),
     mkResponse 200 (JMessage "Post unliked successfully")).
Proof.
  intros Hp Hu. unfold likeUnlikePost. run_handler. rewrite Hp.
  rewrite bool_decide_eq_true_2 by done.
  do 3 f_equal. apply map_eq. intros i. rewrite lookup_alter, lookup_insert.
  case_decide; [by rewrite Hp|done].
Qed.

Lemma set_likes_same (post : Post.t) : Post.set_likes (Post.likes post) post = post.
Proof. by destruct post. Qed.

Lemma filter_eq_not_elem (x : string) (l : list string) :
  x ∉ l -> filter (fun y => y = x) l = [].
Proof.
  induction l as [|y l IH]; [done|].
  intros [Hne Hx]%not_elem_of_cons.
  rewrite filter_cons_False by congruence. by apply IH.
Qed.

(** C2. A like followed by an unlike of the same user on the same post,
    one after the other, gives the post the likes it had before the like:
    the same identities in the same order, and the collection of posts as a
    whole is what it was. *)
Theorem like_then_unlike_restores_likes req w post :
  posts w !! Req.params_id req = Some post ->
  json (likeUnlikePost req w).2 = JMessage "Post liked successfully" ->
  let w1 := (likeUnlikePost req w).1 in
  let r2 := likeUnlikePost req w1 in
  json r2.2 = JMessage "Post unliked successfully" /\
  (exists post2,
     posts r2.1 !! Req.params_id req = Some post2 /\
     Post.likes post2 = Post.likes post) /\
  posts r2.1 = posts w.
Proof.
  intros Hp Hliked w1 r2. subst w1 r2.
  destruct (decide (Req._id (Req.user req) ∈ Post.likes post)) as [Hin|Hout].
  { rewrite (likeUnlikePost_unlike _ _ _ Hp Hin) in Hliked. discriminate. }
  rewrite (likeUnlikePost_like _ _ _ Hp Hout). simpl.
  erewrite likeUnlikePost_unlike; cycle 1.
  { simpl. apply lookup_insert_eq. }
  { simpl. set_solver. }
  simpl. rewrite pull_snoc by done.
  change (Post.set_likes (Post.likes post) (Post.set_likes _ post))
    with (Post.set_likes (Post.likes post) post).
  rewrite set_likes_same.
  rewrite insert_insert_eq, (insert_id _ _ _ Hp).
  split; [done|]. split; [|done]. by exists post.
Qed.

Lemma like_then_unlike_restores_likes_witness :
  let req := plain_request "u3" "p2" in
  let w1 := (likeUnlikePost req sample_world).1 in
  let r2 := likeUnlikePost req w1 in
  Post.likes <$> posts w1 !! "p2" = Some ["u1"; "u3"] /\
  json r2.2 = JMessage "Post unliked successfully" /\
  (exists post2,
     posts r2.1 !! "p2" = Some post2 /\ Post.likes post2 = ["u1"]) /\
  posts r2.1 = posts sample_world.
Proof.
  intros req w1 r2. split; [reflexivity|].
  apply (like_then_unlike_restores_likes req sample_world
           (Post.mk "u2" "look"
              (Some "https://res.cloudinary.com/demo/image/upload/v1/abc123.jpg")
              ["u1"] [] 20)); reflexivity.
Defined.

(** Served alone: once [likeUnlikePost] has completed on an existing post
    with no other request in between its read and its write, the caller is
    in the likes of that post at most once.  A call made while the caller
    is already a member takes the caller out and adds no entry, and likes
    that were free of duplicates stay so. *)
Lemma likeUnlikePost_at_most_once req w post :
  posts w !! Req.params_id req = Some post ->
  let u := Req._id (Req.user req) in
  exists post',
    posts (likeUnlikePost req w).1 !! Req.params_id req = Some post' /\
    length (filter (fun x => x = u) (Post.likes post')) <= 1 /\
    (u ∈ Post.likes post ->
       (u ∉ Post.likes post') /\
       (forall x, x ∈ Post.likes post' -> x ∈ Post.likes post)) /\
    (NoDup (Post.likes post) -> NoDup (Post.likes post')).
Proof.
  intros Hp u. subst u.
  destruct (decide (Req._id (Req.user req) ∈ Post.likes post)) as [Hin|Hout].
  - rewrite (likeUnlikePost_unlike _ _ _ Hp Hin). simpl.
    eexists. split; [apply lookup_insert_eq|]. simpl.
    split; [|split].
    + rewrite filter_eq_not_elem by apply pull_not_elem. simpl. lia.
    + intros _. split; [apply pull_not_elem|].
      unfold pull. by intros x [_ ?]%list_elem_of_filter.
    + apply NoDup_filter.
  - rewrite (likeUnlikePost_like _ _ _ Hp Hout). simpl.
    eexists. split; [apply lookup_insert_eq|]. simpl.
    split; [|split].
    + rewrite filter_app, filter_eq_not_elem by done.
      rewrite filter_cons_True by done. simpl. lia.
    + done.
    + intros Hnd. apply NoDup_app. split; [done|].
      split; [|apply NoDup_singleton].
      intros x Hx ->%list_elem_of_singleton. done.
Qed.

Lemma likeUnlikePost_at_most_once_witness :
  let req := plain_request "u1" "p2" in
  exists post',
    posts (likeUnlikePost req sample_world).1 !! "p2" = Some post' /\
    length (filter (fun x => x = "u1") (Post.likes post')) <= 1 /\
    ("u1" ∈ ["u1"] ->
       ("u1" ∉ Post.likes post') /\
       (forall x, x ∈ Post.likes post' -> x ∈ ["u1"])) /\
    (NoDup ["u1"] -> NoDup (Post.likes post')).
Proof.
  intros req.
  apply (likeUnlikePost_at_most_once req sample_world
           (Post.mk "u2" "look"
              (Some "https://res.cloudinary.com/demo/image/upload/v1/abc123.jpg")
              ["u1"] [] 20)).
  reflexivity.
Defined.

(** Served alone, the two halves are the handler. *)
Lemma likeUnlikePost_halves req w :
  likeUnlikePost_write req (read_result req w) w = likeUnlikePost req w.
Proof.
  unfold likeUnlikePost_write, likeUnlikePost, read_result, likeUnlikePost_read,
    Post_save_pushed_like.
  run_handler. destruct (posts w !! Req.params_id req) as [post|] eqn:Hp; [|done].
  destruct (bool_decide _); [done|]. rewrite Hp. do 3 f_equal.
  apply map_eq. intros i. rewrite lookup_alter, lookup_insert.
  case_decide; [by rewrite Hp|done].
Qed.

(** The race in general: two interleaved likes of a user who is not yet
    in the likes both answer that the post was liked, and the user is
    stored twice. *)
Lemma likeUnlikePost_interleaved_likes req w post :
  posts w !! Req.params_id req = Some post ->
  Req._id (Req.user req) ∉ Post.likes post ->
  let u := Req._id (Req.user req) in
  let r := likeUnlikePost_interleaved req req w in
  r.2 = (mkResponse 200 (JMessage "Post liked successfully"),
         mkResponse 200 (JMessage "Post liked successfully")) /\
  Post.likes <$> posts r.1 !! Req.params_id req =
    Some (Post.likes post ++ [u; u])%list.
Proof.
  intros Hp Hout u r. subst u r.
  unfold likeUnlikePost_interleaved, read_result, likeUnlikePost_read,
    likeUnlikePost_write, Post_save_pushed_like.
  run_handler. rewrite Hp, bool_decide_eq_false_2 by done. simpl.
  rewrite Hp. simpl. rewrite lookup_alter, decide_True by done. rewrite Hp. simpl.
  split; [done|].
  rewrite !lookup_alter, !decide_True by done. rewrite Hp. simpl.
  by rewrite <- app_assoc.
Qed.

(** C3. The code at the failing input: two [likeUnlikePost] requests of
    user u3 on post p1, which u3 has not liked, with both reads served
    before either write.  Both are answered "Post liked successfully" and
    the likes of p1 then hold u3 twice, where the claim allows one entry
    at most; served one after the other the same two requests leave no
    entry of u3. *)
Lemma likeUnlikePost_interleaved_duplicate :
  let req := plain_request "u3" "p1" in
  let r := likeUnlikePost_interleaved req req sample_world in
  Post.likes <$> posts sample_world !! "p1" = Some [] /\
  r.2 = (mkResponse 200 (JMessage "Post liked successfully"),
         mkResponse 200 (JMessage "Post liked successfully")) /\
  Post.likes <$> posts r.1 !! "p1" = Some ["u3"; "u3"] /\
  ~ (exists post',
       posts r.1 !! "p1" = Some post' /\
       length (filter (fun x => x = "u3") (Post.likes post')) <= 1) /\
  Post.likes <$>
    posts (likeUnlikePost req (likeUnlikePost req sample_world).1).1 !! "p1" =
    Some [].
Proof.
  vm_compute. do 3 (split; [done|]). split; [|done].
  intros (post' & [= <-] & Hlen). vm_compute in Hlen. lia.
Qed.

(** ** Creating a post *)

Lemma error_kind_201 (body : Json) : error_kind (mkResponse 201 body) = None.
Proof. reflexivity. Qed.

Lemma error_kind_500 (body : Json) :
  error_kind (mkResponse 500 body) = Some StorageError.
Proof. reflexivity. Qed.

Section CreatePost.
Variable upload : string -> Awaited string.

(** A request that fails one of the guards leaves the world alone. *)
Lemma createPost_missing_field now req w :
  truthy (Req.postedBy (Req.body req)) = false \/
  truthy (Req.text (Req.body req)) = false ->
  createPost upload now req w =
    (w, mkResponse 400 (JError "Please fill all the fields")).
Proof.
  intros H. unfold createPost.
  destruct H as [-> | ->]; [done|].
  by rewrite orb_true_r.
Qed.

Lemma createPost_unauthorized now req w postedBy user :
  Req.postedBy (Req.body req) = Some postedBy ->
  truthy (Some postedBy) = true ->
  truthy (Req.text (Req.body req)) = true ->
  users w !! postedBy = Some user ->
  Req._id (Req.user req) <> postedBy ->
  createPost upload now req w =
    (w, mkResponse 401 (JError "Unauthorized to create post")).
Proof.
  intros Hpb Hp Ht Hu Hne. unfold createPost. rewrite Hpb, Hp, Ht.
  run_handler. rewrite Hu. simpl.
  destruct (String.eqb_spec postedBy (Req._id (Req.user req))); [congruence|done].
Qed.

Lemma createPost_too_long now req w postedBy text user :
  Req.postedBy (Req.body req) = Some postedBy ->
  truthy (Some postedBy) = true ->
  Req.text (Req.body req) = Some text ->
  users w !! postedBy = Some user ->
  Req._id (Req.user req) = postedBy ->
  maxLength < String.length text ->
  createPost upload now req w =
    (w, mkResponse 400 (JError "Text length should be less than 500 characters")).
Proof.
  intros Hpb Hp Ht Hu Hc Hlen. unfold createPost. rewrite Hpb, Hp, Ht.
  assert (truthy (Some text) = true) as ->.
  { destruct text; [|done]. simpl in Hlen. lia. }
  run_handler. rewrite Hu. cbn [fmap option_fmap option_map fst].
  rewrite Hc, String.eqb_refl.
  cbn [negb]. by apply Nat.ltb_lt in Hlen as ->.
Qed.

(** Past the guards the post is built, after the upload of its image
    when it has one. *)
Lemma createPost_accepted now req w postedBy text user :
  Req.postedBy (Req.body req) = Some postedBy ->
  truthy (Some postedBy) = true ->
  Req.text (Req.body req) = Some text ->
  truthy (Some text) = true ->
  users w !! postedBy = Some user ->
  Req._id (Req.user req) = postedBy ->
  String.length text <= maxLength ->
  let img := Req.img (Req.body req) in
  let id := fresh_string "post" (posts w) in
  createPost upload now req w =
    if truthy img then
      match upload (default EmptyString img) with
      | Fulfilled secure_url =>
          let newPost := new_Post now postedBy text (Some secure_url) in
          let w' := emit (CloudUpload (default EmptyString img)) w in
          (emit (PostSave id) (set_posts (<[id := newPost]> (posts w)) w'),
           mkResponse 201 (JPost id newPost))
      | Rejected msg =>
          (emit (CloudUpload (default EmptyString img)) w, mkResponse 500 (JError msg))
      end
    else
      let newPost := new_Post now postedBy text img in
      (emit (PostSave id) (set_posts (<[id := newPost]> (posts w)) w),
       mkResponse 201 (JPost id newPost)).
Proof.
  intros Hpb Hp Ht Htt Hu Hc Hlen img id. subst img id.
  unfold createPost. rewrite Hpb, Hp, Ht, Htt.
  run_handler. rewrite Hu. cbn [fmap option_fmap option_map fst].
  rewrite Hc, String.eqb_refl.
  cbn [negb]. apply Nat.ltb_ge in Hlen as ->.
  destruct (truthy (Req.img (Req.body req))); [|done].
  by destruct (upload _).
Qed.

End CreatePost.

(** C4 as stated fails: with [postedBy] present, resolving and equal to the
    caller, an empty text is refused as invalid input although it is not
    longer than the limit. *)
Lemma createPost_empty_text_invalid :
  let req := create_request "u1" "u1" EmptyString None in
  let r := createPost sample_upload 0 req sample_world in
  truthy (Req.postedBy (Req.body req)) = true /\
  is_Some (users sample_world !! "u1") /\
  Req._id (Req.user req) = "u1" /\
  error_kind r.2 = Some InvalidInput /\
  ~ (maxLength < String.length EmptyString) /\
  ~ (error_kind r.2 = Some InvalidInput <-> maxLength < String.length EmptyString).
Proof.
  vm_compute. repeat split; try done; try by eexists.
  - intros H. by apply Nat.nle_succ_0 in H.
  - intros [H _]. specialize (H eq_refl). by apply Nat.nle_succ_0 in H.
Qed.

(** C4, amended. For a create request whose [postedBy] and [text] are both
    present (the text not empty), whose [postedBy] resolves to a user and
    equals the caller: [createPost] fails with invalid input exactly when
    the text is longer than 500 characters; on that failure the world is
    untouched, so nothing is persisted and no upload is issued; and a text
    of exactly 500 characters is accepted and persisted when the request
    has no image or the upload of its image is fulfilled. *)
Theorem createPost_length_limit upload now req w postedBy text user :
  Req.postedBy (Req.body req) = Some postedBy ->
  truthy (Some postedBy) = true ->
  Req.text (Req.body req) = Some text ->
  truthy (Some text) = true ->
  users w !! postedBy = Some user ->
  Req._id (Req.user req) = postedBy ->
  let img := Req.img (Req.body req) in
  let r := createPost upload now req w in
  (error_kind r.2 = Some InvalidInput <-> maxLength < String.length text) /\
  (maxLength < String.length text -> r.1 = w) /\
  (String.length text = maxLength ->
   truthy img = false \/ (exists url, upload (default EmptyString img) = Fulfilled url) ->
   exists id post,
     r.2 = mkResponse 201 (JPost id post) /\
     Post.text post = text /\
     posts r.1 !! id = Some post).
Proof.
  intros Hpb Hp Ht Htt Hu Hc img r. subst img r.
  destruct (decide (maxLength < String.length text)) as [Hlong|Hshort].
  - rewrite (createPost_too_long upload now req w postedBy text user) by done.
    split; [done|]. split; [done|]. intros Heq. lia.
  - rewrite (createPost_accepted upload now req w postedBy text user)
      by (done || lia).
    split; [|split; [done|]].
    + split; [|done].
      destruct (truthy (Req.img (Req.body req))); [destruct (upload _)|];
        cbn [snd]; by rewrite ?error_kind_201, ?error_kind_500.
    + intros _ [-> | [url Hup]].
      * do 2 eexists. split; [reflexivity|]. split; [done|]. apply lookup_insert_eq.
      * rewrite Hup. destruct (truthy (Req.img (Req.body req)));
          (do 2 eexists; split; [reflexivity|]; split; [done|]; apply lookup_insert_eq).
Qed.

Lemma createPost_length_limit_witness :
  let req := create_request "u1" "u1" (text_of_length 501) (Some "raw") in
  let r := createPost sample_upload 30 req sample_world in
  (error_kind r.2 = Some InvalidInput <->
   maxLength < String.length (text_of_length 501)) /\
  (maxLength < String.length (text_of_length 501) -> r.1 = sample_world) /\
  (String.length (text_of_length 501) = maxLength ->
   truthy (Some "raw") = false \/
   (exists url, sample_upload (default EmptyString (Some "raw")) = Fulfilled url) ->
   exists id post,
     r.2 = mkResponse 201 (JPost id post) /\
     Post.text post = text_of_length 501 /\
     posts r.1 !! id = Some post).
Proof.
  intros req r.
  apply (createPost_length_limit sample_upload 30 req sample_world "u1"
           (text_of_length 501) (User.mk "ann" "ann.png" ["u2"]));
    reflexivity.
Defined.

(** The limit itself: 500 characters pass, 501 do not. *)
Example createPost_500_accepted :
  status (createPost sample_upload 30
            (create_request "u1" "u1" (text_of_length 500) None) sample_world).2 = 201.
Proof. vm_compute. reflexivity. Qed.

Example createPost_501_refused :
  createPost sample_upload 30
    (create_request "u1" "u1" (text_of_length 501) (Some "raw")) sample_world =
  (sample_world,
   mkResponse 400 (JError "Text length should be less than 500 characters")).
Proof. vm_compute. reflexivity. Qed.

(** C5 as stated fails: with [postedBy] present and resolving but different
    from the caller, a request without text is refused as invalid input,
    not as unauthorized; the field check comes first. *)
Lemma createPost_other_user_empty_text :
  let req := create_request "u2" "u1" EmptyString None in
  let r := createPost sample_upload 0 req sample_world in
  truthy (Req.postedBy (Req.body req)) = true /\
  is_Some (users sample_world !! "u1") /\
  Req._id (Req.user req) <> "u1" /\
  error_kind r.2 = Some InvalidInput /\
  error_kind r.2 <> Some Unauthorized.
Proof. vm_compute. repeat split; try done. by eexists. Qed.

(** C5, amended. For a create request whose [postedBy] and [text] are both
    present (the text not empty) and whose [postedBy] resolves to a user
    other than the caller, [createPost] fails as unauthorized and the
    world is untouched: no post is persisted and no upload is issued. *)
Theorem createPost_for_other_user upload now req w postedBy user :
  Req.postedBy (Req.body req) = Some postedBy ->
  truthy (Some postedBy) = true ->
  truthy (Req.text (Req.body req)) = true ->
  users w !! postedBy = Some user ->
  Req._id (Req.user req) <> postedBy ->
  let r := createPost upload now req w in
  error_kind r.2 = Some Unauthorized /\
  r.2 = mkResponse 401 (JError "Unauthorized to create post") /\
  r.1 = w.
Proof.
  intros Hpb Hp Ht Hu Hne r. subst r.
  by rewrite (createPost_unauthorized upload now req w postedBy user).
Qed.

Lemma createPost_for_other_user_witness :
  let req := create_request "u2" "u1" "hello" (Some "raw") in
  let r := createPost sample_upload 30 req sample_world in
  error_kind r.2 = Some Unauthorized /\
  r.2 = mkResponse 401 (JError "Unauthorized to create post") /\
  r.1 = sample_world.
Proof.
  intros req r.
  apply (createPost_for_other_user sample_upload 30 req sample_world "u1"
           (User.mk "ann" "ann.png" ["u2"])); done.
Defined.

(** C8 as stated fails: a valid create request that carries an image does
    not succeed when the blob store rejects the upload; the handler answers
    500 and stores nothing. *)
Lemma createPost_upload_rejected :
  let req := create_request "u1" "u1" "hello" (Some "down") in
  let r := createPost sample_upload 30 req sample_world in
  Req._id (Req.user req) = "u1" /\
  is_Some (users sample_world !! "u1") /\
  1 <= String.length "hello" <= maxLength /\
  error_kind r.2 = Some StorageError /\
  ~ succeeded r.2 /\
  posts r.1 = posts sample_world.
Proof.
  vm_compute. repeat split; try done.
  - by eexists.
  - repeat constructor.
  - apply Nat.leb_le. vm_compute. reflexivity.
Qed.

(** C8, amended. For a valid create request (caller equal to [postedBy],
    [postedBy] resolving to a user, a text of 1 to 500 characters) that has
    no image or whose image upload is fulfilled, [createPost] succeeds with
    201 and the post it returns and stores has no likes and no replies. *)
Theorem createPost_returns_empty_post upload now req w postedBy text user :
  Req.postedBy (Req.body req) = Some postedBy ->
  truthy (Some postedBy) = true ->
  Req.text (Req.body req) = Some text ->
  users w !! postedBy = Some user ->
  Req._id (Req.user req) = postedBy ->
  1 <= String.length text <= maxLength ->
  let img := Req.img (Req.body req) in
  truthy img = false \/ (exists url, upload (default EmptyString img) = Fulfilled url) ->
  let r := createPost upload now req w in
  exists id post,
    r.2 = mkResponse 201 (JPost id post) /\
    succeeded r.2 /\
    Post.likes post = [] /\
    Post.replies post = [] /\
    posts r.1 !! id = Some post.
Proof.
  intros Hpb Hp Ht Hu Hc [Hlo Hhi] img Himg r. subst img r.
  assert (truthy (Some text) = true) as Htt.
  { destruct text; [simpl in Hlo; lia|done]. }
  rewrite (createPost_accepted upload now req w postedBy text user) by done.
  destruct Himg as [-> | [url Hup]].
  - do 2 eexists. split; [reflexivity|]. split; [done|].
    split; [done|]. split; [done|]. apply lookup_insert_eq.
  - rewrite Hup. destruct (truthy (Req.img (Req.body req)));
      (do 2 eexists; split; [reflexivity|]; split; [done|];
       split; [done|]; split; [done|]; apply lookup_insert_eq).
Qed.

Lemma createPost_returns_empty_post_witness :
  let req := create_request "u1" "u1" "hello" (Some "raw") in
  let r := createPost sample_upload 30 req sample_world in
  exists id post,
    r.2 = mkResponse 201 (JPost id post) /\
    succeeded r.2 /\
    Post.likes post = [] /\
    Post.replies post = [] /\
    posts r.1 !! id = Some post.
Proof.
  intros req r.
  apply (createPost_returns_empty_post sample_upload 30 req sample_world "u1"
           "hello" (User.mk "ann" "ann.png" ["u2"])); try reflexivity.
  - split; [apply Nat.leb_le|apply Nat.leb_le]; reflexivity.
  - right. eexists. reflexivity.
Defined.

(** ** Deleting a post *)

Lemma last_app_nonempty {A} (l1 l2 : list A) (d : A) :
  l2 <> [] -> List.last (l1 ++ l2)%list d = List.last l2 d.
Proof.
  intros Hne. induction l1 as [|x l1 IH]; [done|].
  simpl. rewrite IH.
  by destruct (l1 ++ l2)%list eqn:E; [apply app_eq_nil in E as [_ ?]|].
Qed.

Lemma split_nonempty (sep : ascii) (s : string) : split sep s <> [].
Proof.
  destruct s as [|c s]; simpl; [done|].
  destruct (Ascii.eqb c sep); [done|]. by destruct (split sep s).
Qed.

Lemma split_without_sep (sep : ascii) (s : string) :
  contains sep s = false -> split sep s = [s].
Proof.
  induction s as [|c s IH]; simpl; [done|].
  intros [-> Hs]%orb_false_elim. by rewrite IH.
Qed.

Lemma split_app_sep (sep : ascii) (a b : string) :
  exists h t, split sep (a ++ String sep b) = (h :: t ++ split sep b)%list.
Proof.
  induction a as [|c a (h & t & IH)]; simpl.
  - rewrite Ascii.eqb_refl. by exists EmptyString, [].
  - rewrite IH. destruct (Ascii.eqb c sep).
    + by exists EmptyString, (h :: t).
    + by exists (String c h), t.
Qed.

Lemma split_hd_before_sep (sep : ascii) (a b : string) :
  contains sep a = false -> hd EmptyString (split sep (a ++ String sep b)) = a.
Proof.
  induction a as [|c a IH]; simpl.
  - by rewrite Ascii.eqb_refl.
  - intros [-> Ha]%orb_false_elim. specialize (IH Ha).
    destruct (split sep (a ++ String sep b)); simpl in *; by subst.
Qed.

Lemma contains_app (c : ascii) (a b : string) :
  contains c (a ++ b) = contains c a || contains c b.
Proof.
  induction a as [|c' a IH]; simpl; [done|]. by rewrite IH, orb_assoc.
Qed.

(** On a URL that ends in [/name.ext] the identifier is [name]. *)
Lemma imgId_file_name (dir name ext : string) :
  contains "/" name = false ->
  contains "." name = false ->
  contains "/" ext = false ->
  imgId (dir ++ "/" ++ name ++ "." ++ ext) = name.
Proof.
  intros Hn1 Hn2 He. unfold imgId.
  change (dir ++ "/" ++ name ++ "." ++ ext)
    with (dir ++ String "/" (name ++ String "." ext)).
  destruct (split_app_sep "/" dir (name ++ String "." ext)) as (h & t & ->).
  rewrite app_comm_cons, last_app_nonempty by apply split_nonempty.
  rewrite (split_without_sep "/").
  - by apply split_hd_before_sep.
  - rewrite contains_app. simpl. by rewrite Hn1, He.
Qed.

Section DeletePost.
Variable destroy : string -> Awaited unit.

Lemma deletePost_unauthorized req w post :
  posts w !! Req.params_id req = Some post ->
  Req._id (Req.user req) <> Post.postedBy post ->
  deletePost destroy req w =
    (w, mkResponse 401 (JError "Unauthorized to delete post")).
Proof.
  intros Hp Hne. unfold deletePost. run_handler. rewrite Hp.
  destruct (String.eqb_spec (Post.postedBy post) (Req._id (Req.user req)));
    [congruence|done].
Qed.

Lemma deletePost_owner req w post :
  posts w !! Req.params_id req = Some post ->
  Req._id (Req.user req) = Post.postedBy post ->
  let id := Req.params_id req in
  let deleted w' :=
    (emit (PostDelete id) (set_posts (delete id (posts w)) w'),
     mkResponse 200 (JMessage "Post deleted successfully")) in
  deletePost destroy req w =
    if truthy (Post.img post) then
      let public_id := imgId (default EmptyString (Post.img post)) in
      match destroy public_id with
      | Fulfilled _ => deleted (emit (CloudDestroy public_id) w)
      | Rejected msg =>
          (emit (CloudDestroy public_id) w, mkResponse 500 (JError msg))
      end
    else deleted w.
Proof.
  intros Hp Hc id deleted. subst id deleted.
  unfold deletePost. run_handler. rewrite Hp, Hc, String.eqb_refl.
  cbn [negb]. destruct (truthy (Post.img post)); [|done].
  by destruct (destroy _).
Qed.

End DeletePost.

(** C7. When the caller is not the owner of an existing post, [deletePost]
    fails as unauthorized and the world is untouched: the post is still
    stored as it was, and neither a deletion in the store nor a call to the
    blob store is issued. *)
Theorem deletePost_by_non_owner destroy req w post :
  posts w !! Req.params_id req = Some post ->
  Req._id (Req.user req) <> Post.postedBy post ->
  let r := deletePost destroy req w in
  error_kind r.2 = Some Unauthorized /\
  r.1 = w /\
  posts r.1 !! Req.params_id req = Some post /\
  trace r.1 = trace w.
Proof.
  intros Hp Hne r. subst r.
  by rewrite (deletePost_unauthorized destroy req w post).
Qed.

Lemma deletePost_by_non_owner_witness :
  let req := plain_request "u1" "p2" in
  let r := deletePost sample_destroy req sample_world in
  error_kind r.2 = Some Unauthorized /\
  r.1 = sample_world /\
  posts r.1 !! "p2" =
    Some (Post.mk "u2" "look"
            (Some "https://res.cloudinary.com/demo/image/upload/v1/abc123.jpg")
            ["u1"] [] 20) /\
  trace r.1 = trace sample_world.
Proof.
  intros req r.
  apply (deletePost_by_non_owner sample_destroy req sample_world); done.
Defined.

(** C10. When the owner deletes an existing post that has an image,
    [deletePost] first asks the blob store to destroy the object named by
    the last path segment of the image URL cut at its first dot (for a URL
    ending in [/name.ext] that is [name]) and removes the post record after
    that.  When the blob store rejects the call the handler answers 500, a
    storage error, and the post record is not deleted. *)
Theorem deletePost_blob_first destroy req w post url :
  posts w !! Req.params_id req = Some post ->
  Req._id (Req.user req) = Post.postedBy post ->
  Post.img post = Some url ->
  truthy (Some url) = true ->
  let id := Req.params_id req in
  let r := deletePost destroy req w in
  match destroy (imgId url) with
  | Fulfilled _ =>
      r.2 = mkResponse 200 (JMessage "Post deleted successfully") /\
      trace r.1 = (trace w ++ [CloudDestroy (imgId url); PostDelete id])%list /\
      posts r.1 = delete id (posts w) /\
      posts r.1 !! id = None
  | Rejected msg =>
      r.2 = mkResponse 500 (JError msg) /\
      error_kind r.2 = Some StorageError /\
      trace r.1 = (trace w ++ [CloudDestroy (imgId url)])%list /\
      posts r.1 = posts w /\
      posts r.1 !! id = Some post
  end /\
  (forall dir name ext,
     url = dir ++ "/" ++ name ++ "." ++ ext ->
     contains "/" name = false ->
     contains "." name = false ->
     contains "/" ext = false ->
     imgId url = name).
Proof.
  intros Hp Hc Himg Ht id r. subst id r. split.
  - rewrite (deletePost_owner destroy req w post Hp Hc), Himg, Ht. simpl.
    destruct (destroy (imgId url)); simpl.
    + rewrite <- app_assoc. do 3 (split; [done|]). apply lookup_delete_eq.
    + by do 4 (split; [done|]).
  - intros dir name ext -> ???. by apply imgId_file_name.
Qed.

Lemma deletePost_blob_first_witness :
  let url := "https://res.cloudinary.com/demo/image/upload/v1/abc123.jpg" in
  let req := plain_request "u2" "p2" in
  let r := deletePost sample_destroy req sample_world in
  (r.2 = mkResponse 200 (JMessage "Post deleted successfully") /\
   trace r.1 = [CloudDestroy "abc123"; PostDelete "p2"] /\
   posts r.1 = delete "p2" sample_posts /\
   posts r.1 !! "p2" = None) /\
  imgId url = "abc123".
Proof.
  intros url req r.
  pose proof (deletePost_blob_first sample_destroy req sample_world
                (Post.mk "u2" "look" (Some url) ["u1"] [] 20) url
                eq_refl eq_refl eq_refl eq_refl) as [H1 H2].
  split; [exact H1|].
  apply (H2 "https://res.cloudinary.com/demo/image/upload/v1" "abc123" "jpg");
    reflexivity.
Defined.

(** The other policy branch on a concrete world: the blob store refuses,
    the post stays. *)
Example deletePost_destroy_rejected :
  let w := set_posts (<["p3" := Post.mk "u1" "x" (Some "https://h/down.png") [] [] 40]>
                        sample_posts) sample_world in
  let r := deletePost sample_destroy (plain_request "u1" "p3") w in
  r.2 = mkResponse 500 (JError "destroy failed") /\
  trace r.1 = [CloudDestroy "down"] /\
  posts r.1 = posts w.
Proof. vm_compute. done. Qed.

(** ** The feed *)

Lemma getFeedPosts_found req w user :
  users w !! Req._id (Req.user req) = Some user ->
  getFeedPosts req w =
    (w, mkResponse 200
          (JPosts (js_sort createdAt_desc
                     (filter (fun d => Post.postedBy d.2 ∈ User.following user)
                        (map_to_list (posts w)))))).
Proof. intros Hu. unfold getFeedPosts. run_handler. by rewrite Hu. Qed.

(** C6. For a caller whose user record exists, with following set F,
    [getFeedPosts] answers 200 with exactly the stored posts whose
    [postedBy] is in F, each of them once: every such post is in the feed
    and no post of a user outside F is; and the feed is sorted by
    [createdAt], newest first. *)
Theorem getFeedPosts_following req w user :
  users w !! Req._id (Req.user req) = Some user ->
  exists feed,
    getFeedPosts req w = (w, mkResponse 200 (JPosts feed)) /\
    (forall id post,
       (id, post) ∈ feed <->
       posts w !! id = Some post /\ Post.postedBy post ∈ User.following user) /\
    NoDup feed /\
    descending (fun d => Post.createdAt d.2) feed.
Proof.
  intros Hu. eexists. split; [by apply getFeedPosts_found|].
  split; [|split].
  - intros id post. rewrite (js_sort_Permutation createdAt_desc).
    rewrite list_elem_of_filter, elem_of_map_to_list. simpl. tauto.
  - rewrite (js_sort_Permutation createdAt_desc).
    apply NoDup_filter, NoDup_map_to_list.
  - apply (js_sort_descending _ _ createdAt_desc_key).
Qed.

Lemma getFeedPosts_following_witness :
  let req := plain_request "u3" EmptyString in
  exists feed,
    getFeedPosts req sample_world = (sample_world, mkResponse 200 (JPosts feed)) /\
    (forall id post,
       (id, post) ∈ feed <->
       posts sample_world !! id = Some post /\ Post.postedBy post ∈ ["u1"; "u2"]) /\
    NoDup feed /\
    descending (fun d => Post.createdAt d.2) feed.
Proof.
  intros req.
  apply (getFeedPosts_following req sample_world (User.mk "cat" EmptyString ["u1"; "u2"])).
  reflexivity.
Defined.

(** The feed of the sample world for a follower of both authors, and for a
    follower of one. *)
Example getFeedPosts_sample :
  json (getFeedPosts (plain_request "u3" EmptyString) sample_world).2 =
    JPosts
      [("p2", Post.mk "u2" "look"
                (Some "https://res.cloudinary.com/demo/image/upload/v1/abc123.jpg")
                ["u1"] [] 20);
       ("p1", Post.mk "u1" "hello" None [] [] 10)] /\
  json (getFeedPosts (plain_request "u1" EmptyString) sample_world).2 =
    JPosts
      [("p2", Post.mk "u2" "look"
                (Some "https://res.cloudinary.com/demo/image/upload/v1/abc123.jpg")
                ["u1"] [] 20)].
Proof. vm_compute. done. Qed.

(** ** Every outcome of [createPost] *)

Lemma truthy_length (s : string) : truthy (Some s) = true <-> 1 <= String.length s.
Proof. destruct s; simpl; split; (done || lia). Qed.

Lemma createPost_user_not_found upload now req w postedBy :
  Req.postedBy (Req.body req) = Some postedBy ->
  truthy (Some postedBy) = true ->
  truthy (Req.text (Req.body req)) = true ->
  users w !! postedBy = None ->
  createPost upload now req w = (w, mkResponse 404 (JError "User not found")).
Proof.
  intros Hpb Hp Ht Hu. unfold createPost. rewrite Hpb, Hp, Ht.
  run_handler. by rewrite Hu.
Qed.

Lemma createPost_outcome upload now req w :
  CreateOutcome upload now req w (createPost upload now req w).
Proof.
  destruct (truthy (Req.postedBy (Req.body req))) eqn:Hp; cycle 1.
  { rewrite createPost_missing_field by auto. constructor. auto. }
  destruct (truthy (Req.text (Req.body req))) eqn:Ht; cycle 1.
  { rewrite createPost_missing_field by auto. constructor. auto. }
  destruct (truthy_Some _ Hp) as (postedBy & Hpb & _). rewrite Hpb in Hp.
  destruct (truthy_Some _ Ht) as (text & Htx & _).
  destruct (users w !! postedBy) as [user|] eqn:Hu; cycle 1.
  { rewrite (createPost_user_not_found upload now req w postedBy) by done.
    constructor. auto. }
  destruct (decide (Req._id (Req.user req) = postedBy)) as [Hc|Hc]; cycle 1.
  { rewrite (createPost_unauthorized upload now req w postedBy user) by done.
    constructor. auto. }
  destruct (decide (maxLength < String.length text)) as [Hlong|Hshort].
  { rewrite (createPost_too_long upload now req w postedBy text user) by done.
    constructor. auto. }
  rewrite Htx in Ht.
  rewrite (createPost_accepted upload now req w postedBy text user)
    by (done || lia).
  subst postedBy.
  assert (1 <= String.length text <= maxLength)
    by (apply truthy_length in Ht; lia).
  destruct (truthy (Req.img (Req.body req))) eqn:Hi.
  - destruct (truthy_Some _ Hi) as (raw & Hraw & _). rewrite Hraw in *. simpl.
    destruct (upload raw) as [url|msg] eqn:Hup.
    + eapply (CreateStored upload now req w text (Some url)); eauto 10.
    + by constructor.
  - eapply (CreateStored upload now req w text); eauto 10.
Qed.

Lemma fresh_post_id (w : World) : posts w !! fresh_string "post" (posts w) = None.
Proof. apply fresh_string_fresh. Qed.

(** X1. Whatever the request, [createPost] answers with one of the codes
    201, 400, 401, 404 and 500; an answer other than 201 leaves the stored
    posts as they were, and a 400, 401 or 404 leaves the whole world
    untouched: no upload was issued before the refusal. *)
Theorem createPost_refusal_touches_nothing upload now req w :
  let r := createPost upload now req w in
  status r.2 ∈ [201; 400; 401; 404; 500] /\
  (status r.2 <> 201 -> posts r.1 = posts w) /\
  (status r.2 <> 201 -> status r.2 <> 500 -> r.1 = w) /\
  users r.1 = users w.
Proof.
  intros r. subst r.
  destruct (createPost_outcome upload now req w)
    as [code msg Hcode | raw msg _ _ _ | text img w0 id post _ _ _ _ Hw0]; simpl.
  - split; [|done]. rewrite !elem_of_cons.
    destruct Hcode as [-> | [-> | ->]]; auto 10.
  - split; [|done]. rewrite !elem_of_cons. auto 10.
  - split; [rewrite !elem_of_cons; auto|]. split; [done|]. split; [done|].
    by destruct Hw0 as [(_ & _ & ->) | (? & ? & _ & _ & _ & _ & ->)].
Qed.



(** X3. When [createPost] answers 201, the post it returns is stored under
    an identifier that no post had before, and the other posts are as they
    were; the post belongs to the caller, carries the text of the request,
    of 1 to 500 characters, and the creation time, and has no likes and no
    replies. *)
Theorem createPost_stored_post upload now req w :
  let r := createPost upload now req w in
  status r.2 = 201 ->
  exists id post,
    json r.2 = JPost id post /\
    posts w !! id = None /\
    posts r.1 = <[id := post]> (posts w) /\
    Post.postedBy post = Req._id (Req.user req) /\
    Req.postedBy (Req.body req) = Some (Post.postedBy post) /\
    Req.text (Req.body req) = Some (Post.text post) /\
    1 <= String.length (Post.text post) <= maxLength /\
    Post.createdAt post = now /\
    Post.likes post = [] /\ Post.replies post = [].
Proof.
  intros r. subst r.
  destruct (createPost_outcome upload now req w)
    as [code msg Hcode | raw msg _ _ _ | text img w0 id post Hpb Htx Hlen _ _];
    simpl; intros Hst.
  - destruct Hcode as [-> | [-> | ->]]; discriminate.
  - discriminate.
  - exists id, post. split; [done|]. split; [apply fresh_post_id|].
    subst post. simpl. by repeat (split; [done|]).
Qed.

Lemma createPost_stored_post_witness :
  let r := createPost sample_upload 30
             (create_request "u1" "u1" "hello" (Some "raw")) sample_world in
  exists id post,
    json r.2 = JPost id post /\
    posts sample_world !! id = None /\
    posts r.1 = <[id := post]> (posts sample_world) /\
    Post.postedBy post = "u1" /\
    Some "u1" = Some (Post.postedBy post) /\
    Some "hello" = Some (Post.text post) /\
    1 <= String.length (Post.text post) <= maxLength /\
    Post.createdAt post = 30%Z /\
    Post.likes post = [] /\ Post.replies post = [].
Proof.
  intros r.
  apply (createPost_stored_post sample_upload 30
           (create_request "u1" "u1" "hello" (Some "raw")) sample_world).
  reflexivity.
Defined.

(** X4. The image of a created post: when the request carries a non-empty
    image, a 201 means that the upload was issued first and the save after
    it, and the post stores the URL that the blob store answered, not the
    raw image; when the image is missing or empty no upload is issued and
    the post stores the field as it came. *)
Theorem createPost_image upload now req w :
  let r := createPost upload now req w in
  let img := Req.img (Req.body req) in
  status r.2 = 201 ->
  exists id post,
    json r.2 = JPost id post /\
    if truthy img then
      exists url,
        upload (default EmptyString img) = Fulfilled url /\
        Post.img post = Some url /\
        trace r.1 =
          (trace w ++ [CloudUpload (default EmptyString img); PostSave id])%list
    else
      Post.img post = img /\ trace r.1 = (trace w ++ [PostSave id])%list.
Proof.
  intros r img. subst r img.
  destruct (createPost_outcome upload now req w)
    as [code msg Hcode | raw msg _ _ _ | text img w0 id post _ _ _ _ Hw0];
    simpl; intros Hst.
  - destruct Hcode as [-> | [-> | ->]]; discriminate.
  - discriminate.
  - exists id, post. split; [done|].
    destruct Hw0 as [(-> & -> & ->) | (raw & url & Hraw & Ht & Hup & -> & ->)].
    + done.
    + rewrite Hraw, Ht. simpl. exists url. by rewrite <- app_assoc.
Qed.

Lemma createPost_image_witness :
  let r := createPost sample_upload 30
             (create_request "u1" "u1" "hello" (Some "raw")) sample_world in
  exists id post,
    json r.2 = JPost id post /\
    exists url,
      sample_upload "raw" = Fulfilled url /\
      Post.img post = Some url /\
      trace r.1 = [CloudUpload "raw"; PostSave id].
Proof.
  intros r.
  apply (createPost_image sample_upload 30
           (create_request "u1" "u1" "hello" (Some "raw")) sample_world).
  reflexivity.
Defined.

(** X5. When a request passes every guard and carries a non-empty image
    that the blob store refuses, [createPost] answers 500 with the message
    of the rejection; the upload was issued and no post is stored. *)
Theorem createPost_rejected_upload upload now req w postedBy text user raw msg :
  Req.postedBy (Req.body req) = Some postedBy ->
  truthy (Some postedBy) = true ->
  Req.text (Req.body req) = Some text ->
  1 <= String.length text <= maxLength ->
  users w !! postedBy = Some user ->
  Req._id (Req.user req) = postedBy ->
  Req.img (Req.body req) = Some raw ->
  truthy (Some raw) = true ->
  upload raw = Rejected msg ->
  let r := createPost upload now req w in
  r.2 = mkResponse 500 (JError msg) /\
  posts r.1 = posts w /\
  trace r.1 = (trace w ++ [CloudUpload raw])%list.
Proof.
  intros Hpb Hp Htx [Hlo Hhi] Hu Hc Hraw Hr Hup r. subst r.
  rewrite (createPost_accepted upload now req w postedBy text user)
    by (done || by apply truthy_length).
  by rewrite Hraw, Hr; simpl; rewrite Hup.
Qed.

Lemma createPost_rejected_upload_witness :
  let r := createPost sample_upload 30
             (create_request "u1" "u1" "hello" (Some "down")) sample_world in
  r.2 = mkResponse 500 (JError "upload failed") /\
  posts r.1 = posts sample_world /\
  trace r.1 = [CloudUpload "down"].
Proof.
  intros r.
  apply (createPost_rejected_upload sample_upload 30 _ sample_world "u1" "hello"
           (User.mk "ann" "ann.png" ["u2"]) "down" "upload failed");
    try reflexivity.
  split; apply Nat.leb_le; reflexivity.
Defined.

(** ** Reading and deleting *)

Lemma getPost_lookup req w :
  getPost req w =
    (w, match posts w !! Req.params_id req with
        | Some post => mkResponse 200 (JPost (Req.params_id req) post)
        | None => mkResponse 404 (JError "Post not found")
        end).
Proof. unfold getPost. run_handler. by destruct (posts w !! _). Qed.

(** X6. A created post can be read back: when [createPost] answers 201
    with a post and its identifier, [getPost] on that identifier, by
    whatever caller, answers 200 with the same post. *)
Theorem create_then_getPost upload now req w req' id post :
  (createPost upload now req w).2 = mkResponse 201 (JPost id post) ->
  Req.params_id req' = id ->
  let w1 := (createPost upload now req w).1 in
  getPost req' w1 = (w1, mkResponse 200 (JPost id post)).
Proof.
  intros Hr Hid w1. subst w1.
  rewrite getPost_lookup, Hid.
  destruct (createPost_outcome upload now req w)
    as [code msg Hcode | raw msg _ _ _ | text img w0 id0 post0 _ _ _ _ _];
    simpl in *; try discriminate.
  injection Hr as <- <-. by rewrite lookup_insert_eq.
Qed.

Lemma create_then_getPost_witness :
  let req := create_request "u1" "u1" "hello" None in
  let post := Post.mk "u1" "hello" None [] [] 30 in
  let w1 := (createPost sample_upload 30 req sample_world).1 in
  getPost (plain_request "u3" "post") w1 =
    (w1, mkResponse 200 (JPost "post" post)).
Proof.
  intros req post w1.
  apply (create_then_getPost sample_upload 30 req sample_world
           (plain_request "u3" "post") "post" post); reflexivity.
Defined.

Lemma deletePost_missing destroy req w :
  posts w !! Req.params_id req = None ->
  deletePost destroy req w = (w, mkResponse 404 (JError "Post not found")).
Proof. intros Hp. unfold deletePost. run_handler. by rewrite Hp. Qed.

(** X7. When the owner deletes a post that has no image, or an empty one,
    the blob store is not called: the only effect is the deletion of the
    record, and the answer is 200. *)
Theorem deletePost_without_image destroy req w post :
  posts w !! Req.params_id req = Some post ->
  Req._id (Req.user req) = Post.postedBy post ->
  truthy (Post.img post) = false ->
  let r := deletePost destroy req w in
  r.2 = mkResponse 200 (JMessage "Post deleted successfully") /\
  trace r.1 = (trace w ++ [PostDelete (Req.params_id req)])%list /\
  posts r.1 = delete (Req.params_id req) (posts w).
Proof.
  intros Hp Hc Hi r. subst r.
  by rewrite (deletePost_owner destroy req w post Hp Hc), Hi.
Qed.

Lemma deletePost_without_image_witness :
  let r := deletePost sample_destroy (plain_request "u1" "p1") sample_world in
  r.2 = mkResponse 200 (JMessage "Post deleted successfully") /\
  trace r.1 = [PostDelete "p1"] /\
  posts r.1 = delete "p1" sample_posts.
Proof.
  intros r.
  apply (deletePost_without_image sample_destroy (plain_request "u1" "p1")
           sample_world (Post.mk "u1" "hello" None [] [] 10)); reflexivity.
Defined.

(** The outcomes of [deletePost] on the collection of posts. *)
Lemma deletePost_posts destroy req w :
  let r := deletePost destroy req w in
  (posts r.1 = posts w /\ status r.2 <> 200) \/
  (exists post,
     posts w !! Req.params_id req = Some post /\
     Post.postedBy post = Req._id (Req.user req) /\
     posts r.1 = delete (Req.params_id req) (posts w) /\
     status r.2 = 200).
Proof.
  intros r. subst r.
  destruct (posts w !! Req.params_id req) as [post|] eqn:Hp; cycle 1.
  { rewrite deletePost_missing by done. by left. }
  destruct (decide (Req._id (Req.user req) = Post.postedBy post)) as [Hc|Hc];
    cycle 1.
  { rewrite (deletePost_unauthorized destroy req w post) by done. by left. }
  rewrite (deletePost_owner destroy req w post Hp Hc).
  destruct (truthy (Post.img post)); simpl; [destruct (destroy _)|]; simpl;
    first [by left | right; by exists post].
Qed.

(* What [deletePost] can do to the collection of posts. *)
Lemma deletePost_frame destroy req w :
  let r := deletePost destroy req w in
  (forall id, id <> Req.params_id req -> posts r.1 !! id = posts w !! id) /\
  (forall post,
     posts w !! Req.params_id req = Some post ->
     posts r.1 !! Req.params_id req = None ->
     Post.postedBy post = Req._id (Req.user req) /\ status r.2 = 200) /\
  (status r.2 <> 200 -> posts r.1 = posts w) /\
  (status r.2 = 200 -> posts r.1 !! Req.params_id req = None).
Proof.
  intros r.
  destruct (deletePost_posts destroy req w)
    as [[Heq Hst] | (post & Hp & Hc & Heq & Hst)]; fold r in Heq, Hst;
    rewrite Heq.
  - split; [done|]. split; [congruence|]. done.
  - split; [intros id Hne; by rewrite lookup_delete_ne|].
    split; [intros post' Hp' _; by simplify_eq|].
    split; [done|]. intros _. apply lookup_delete_eq.
Qed.


(** X9. After a successful [deletePost] the post is gone for good:
    [getPost] on its identifier answers 404, and a second [deletePost] of
    it, by the owner again, answers 404 and changes nothing. *)
Theorem deletePost_then_not_found destroy req w req' :
  status (deletePost destroy req w).2 = 200 ->
  Req.params_id req' = Req.params_id req ->
  let w1 := (deletePost destroy req w).1 in
  getPost req' w1 = (w1, mkResponse 404 (JError "Post not found")) /\
  deletePost destroy req w1 = (w1, mkResponse 404 (JError "Post not found")).
Proof.
  intros Hst Hid w1.
  assert (posts w1 !! Req.params_id req = None) as Hgone.
  { by apply (deletePost_frame destroy req w). }
  split.
  - by rewrite getPost_lookup, Hid, Hgone.
  - by apply deletePost_missing.
Qed.

Lemma deletePost_then_not_found_witness :
  let req := plain_request "u2" "p2" in
  let w1 := (deletePost sample_destroy req sample_world).1 in
  getPost (plain_request "u1" "p2") w1 =
    (w1, mkResponse 404 (JError "Post not found")) /\
  deletePost sample_destroy req w1 =
    (w1, mkResponse 404 (JError "Post not found")).
Proof.
  intros req w1.
  apply (deletePost_then_not_found sample_destroy req sample_world
           (plain_request "u1" "p2")); reflexivity.
Defined.

(** ** The identifier of the stored image *)

Lemma split_segments_clean (sep : ascii) (s : string) :
  Forall (fun seg => contains sep seg = false) (split sep s).
Proof.
  induction s as [|c s IH]; simpl; [by repeat constructor|].
  destruct (Ascii.eqb c sep) eqn:E; [by constructor|].
  destruct (split sep s) as [|h t]; [by repeat constructor; simpl; rewrite E|].
  apply Forall_cons in IH as [Hh Ht].
  constructor; [simpl; by rewrite E, Hh|done].
Qed.

Lemma last_Forall {A} (P : A -> Prop) (l : list A) (d : A) :
  l <> [] -> Forall P l -> P (List.last l d).
Proof.
  induction l as [|x [|y l] IH]; [done|by intros _ [? _]%Forall_cons|].
  intros _ [_ Hl]%Forall_cons. by apply IH.
Qed.

Lemma contains_head_split (c sep : ascii) (s : string) :
  contains c s = false -> contains c (hd EmptyString (split sep s)) = false.
Proof.
  induction s as [|c' s IH]; simpl; [done|].
  intros [Hc Hs]%orb_false_elim.
  destruct (Ascii.eqb c' sep); [done|].
  specialize (IH Hs). destruct (split sep s); simpl in *; by rewrite Hc.
Qed.

(** X10. The identifier that [deletePost] hands to the blob store never
    contains a slash or a dot, whatever the stored URL is. *)
Theorem imgId_no_separator (url : string) :
  contains "/" (imgId url) = false /\ contains "." (imgId url) = false.
Proof.
  unfold imgId. split.
  - apply contains_head_split.
    apply (last_Forall (fun seg => contains "/" seg = false));
      [apply split_nonempty|apply split_segments_clean].
  - pose proof (split_segments_clean "." (List.last (split "/" url) EmptyString))
      as H.
    destruct (split "." _) eqn:E; [done|]. by apply Forall_cons in H as [? _].
Qed.

(** X11. The identifier depends on the last path segment only: whatever
    precedes the last slash of the URL has no effect, and on a file name
    without a dot the identifier is the whole name. *)
Theorem imgId_last_segment (dir file : string) :
  contains "/" file = false ->
  imgId (dir ++ "/" ++ file) = imgId file /\
  (contains "." file = false -> imgId (dir ++ "/" ++ file) = file).
Proof.
  intros Hf. unfold imgId.
  change (dir ++ "/" ++ file) with (dir ++ String "/" file).
  destruct (split_app_sep "/" dir file) as (h & t & ->).
  rewrite app_comm_cons, last_app_nonempty by apply split_nonempty.
  split; [done|]. intros Hd.
  by rewrite (split_without_sep "/"), (split_without_sep ".").
Qed.

Lemma imgId_last_segment_witness :
  imgId ("https://host/a.b/c" ++ "/" ++ "pic.tar.gz") = imgId "pic.tar.gz" /\
  (contains "." "pic.tar.gz" = false ->
   imgId ("https://host/a.b/c" ++ "/" ++ "pic.tar.gz") = "pic.tar.gz").
Proof. apply (imgId_last_segment "https://host/a.b/c" "pic.tar.gz"). reflexivity. Defined.

(** ** More on likes *)

Lemma likeUnlikePost_missing req w :
  posts w !! Req.params_id req = None ->
  likeUnlikePost req w = (w, mkResponse 404 (JError "Post not found")).
Proof. intros Hp. unfold likeUnlikePost. run_handler. by rewrite Hp. Qed.

Lemma elem_of_pull (x y : string) (l : list string) :
  y ∈ pull x l <-> y <> x /\ y ∈ l.
Proof. unfold pull. by rewrite list_elem_of_filter. Qed.

(* Both branches of [likeUnlikePost] and the missing post. *)
Lemma likeUnlikePost_cases req w :
  let id := Req.params_id req in
  let u := Req._id (Req.user req) in
  let r := likeUnlikePost req w in
  match posts w !! id with
  | None => r = (w, mkResponse 404 (JError "Post not found"))
  | Some post =>
      exists likes',
        posts r.1 = <[id := Post.set_likes likes' post]> (posts w) /\
        (u ∈ likes' <-> u ∉ Post.likes post) /\
        (forall v, v <> u -> v ∈ likes' <-> v ∈ Post.likes post) /\
        r.2 = mkResponse 200
                (JMessage (if bool_decide (u ∈ Post.likes post)
                           then "Post unliked successfully"
                           else "Post liked successfully"))
  end.
Proof.
  intros id u r. subst id u r.
  destruct (posts w !! Req.params_id req) as [post|] eqn:Hp;
    [|by apply likeUnlikePost_missing].
  destruct (decide (Req._id (Req.user req) ∈ Post.likes post)) as [Hin|Hout].
  - rewrite (likeUnlikePost_unlike _ _ _ Hp Hin), bool_decide_eq_true_2 by done.
    eexists. split; [done|]. split; [|split; [|done]].
    + split; [by intros ?%pull_not_elem|done].
    + intros v Hv. rewrite elem_of_pull. tauto.
  - rewrite (likeUnlikePost_like _ _ _ Hp Hout), bool_decide_eq_false_2 by done.
    eexists. split; [done|]. split; [|split; [|done]].
    + split; [done|]. intros _. apply elem_of_app. right. by left.
    + intros v Hv. rewrite elem_of_app, list_elem_of_singleton. tauto.
Qed.



(** X13. Two calls of [likeUnlikePost] by the same user on the same stored
    post, one after the other, leave the membership of every user in the
    likes as it was, whether the user was a member or not; a user who was
    a member ends up as the last entry, and for a user who was not the
    list of likes is the one from before. *)
Theorem likeUnlikePost_twice req w post :
  posts w !! Req.params_id req = Some post ->
  let u := Req._id (Req.user req) in
  let w2 := (likeUnlikePost req (likeUnlikePost req w).1).1 in
  exists post2,
    posts w2 !! Req.params_id req = Some post2 /\
    (forall v, v ∈ Post.likes post2 <-> v ∈ Post.likes post) /\
    (u ∈ Post.likes post ->
     Post.likes post2 = (pull u (Post.likes post) ++ [u])%list) /\
    (u ∉ Post.likes post -> Post.likes post2 = Post.likes post).
Proof.
  intros Hp u w2. subst u w2.
  destruct (decide (Req._id (Req.user req) ∈ Post.likes post)) as [Hin|Hout].
  - rewrite (likeUnlikePost_unlike _ _ _ Hp Hin). simpl.
    erewrite likeUnlikePost_like; cycle 1.
    { simpl. apply lookup_insert_eq. }
    { simpl. apply pull_not_elem. }
    simpl. eexists. split; [apply lookup_insert_eq|]. simpl.
    split; [|by split].
    intros v. rewrite elem_of_app, elem_of_pull, list_elem_of_singleton.
    destruct (decide (v = Req._id (Req.user req))) as [->|]; tauto.
  - rewrite (likeUnlikePost_like _ _ _ Hp Hout). simpl.
    erewrite likeUnlikePost_unlike; cycle 1.
    { simpl. apply lookup_insert_eq. }
    { simpl. apply elem_of_app. right. by left. }
    simpl. rewrite pull_snoc by done.
    eexists. split; [apply lookup_insert_eq|]. simpl.
    split; [done|]. by split.
Qed.

Lemma likeUnlikePost_twice_witness :
  let req := plain_request "u2" "p3" in
  let w2 := (likeUnlikePost req (likeUnlikePost req sample_thread).1).1 in
  exists post2,
    posts w2 !! "p3" = Some post2 /\
    (forall v, v ∈ Post.likes post2 <-> v ∈ ["u2"; "u3"]) /\
    ("u2" ∈ ["u2"; "u3"] -> Post.likes post2 = ["u3"; "u2"]) /\
    ("u2" ∉ ["u2"; "u3"] -> Post.likes post2 = ["u2"; "u3"]).
Proof.
  intros req w2.
  apply (likeUnlikePost_twice req sample_thread
           (Post.mk "u1" "thread" None ["u2"; "u3"]
              [Reply.mk "u2" "later" "bob.png" "bob" 50;
               Reply.mk "u3" "sooner" EmptyString "cat" 40] 30)).
  reflexivity.
Defined.

(** ** More on replies *)

Lemma replyToPost_empty_text now req w :
  truthy (Req.text (Req.body req)) = false ->
  replyToPost now req w = (w, mkResponse 400 (JError "Text cannot be empty")).
Proof. intros Ht. unfold replyToPost. by rewrite Ht. Qed.

Lemma replyToPost_missing now req w :
  truthy (Req.text (Req.body req)) = true ->
  posts w !! Req.params_id req = None ->
  replyToPost now req w = (w, mkResponse 404 (JError "Post not found")).
Proof.
  intros Ht Hp. unfold replyToPost. rewrite Ht. run_handler. by rewrite Hp.
Qed.



(** X15. A reply loses nothing: after [replyToPost] on a stored post the
    replies are the earlier ones and the new one, in some order, one more
    than before; the likes, the owner, the text, the image and the
    creation time of the post are as they were, and no post under another
    identifier is touched. *)
Theorem replyToPost_keeps_replies now req w post :
  truthy (Req.text (Req.body req)) = true ->
  posts w !! Req.params_id req = Some post ->
  let r := replyToPost now req w in
  let new :=
    Reply.mk (Req._id (Req.user req)) (default EmptyString (Req.text (Req.body req)))
      (Req.profilePicture (Req.user req)) (Req.username (Req.user req)) now in
  (exists post',
     posts r.1 !! Req.params_id req = Some post' /\
     Post.replies post' ≡ₚ new :: Post.replies post /\
     length (Post.replies post') = S (length (Post.replies post)) /\
     Post.likes post' = Post.likes post /\
     Post.postedBy post' = Post.postedBy post /\
     Post.text post' = Post.text post /\
     Post.img post' = Post.img post /\
     Post.createdAt post' = Post.createdAt post) /\
  (forall id', id' <> Req.params_id req -> posts r.1 !! id' = posts w !! id').
Proof.
  intros Ht Hp r new. subst r new.
  rewrite (replyToPost_ok now req w post Ht Hp). simpl.
  assert (js_sort newest_first
            (castReply now
               (reply_object (Req._id (Req.user req))
                  (default EmptyString (Req.text (Req.body req)))
                  (Req.profilePicture (Req.user req))
                  (Req.username (Req.user req))) :: Post.replies post)
          ≡ₚ Reply.mk (Req._id (Req.user req))
               (default EmptyString (Req.text (Req.body req)))
               (Req.profilePicture (Req.user req))
               (Req.username (Req.user req)) now :: Post.replies post) as Hperm.
  { by rewrite (js_sort_Permutation newest_first). }
  split.
  - eexists. split; [apply lookup_insert_eq|]. simpl.
    split; [done|]. split; [by rewrite Hperm|]. done.
  - intros id' Hne. by rewrite lookup_insert_ne.
Qed.

Lemma replyToPost_keeps_replies_witness :
  let req := text_request "u1" "p3" "now" in
  let r := replyToPost 45 req sample_thread in
  (exists post',
     posts r.1 !! "p3" = Some post' /\
     Post.replies post' ≡ₚ
       [Reply.mk "u1" "now" "ann.png" "ann" 45;
        Reply.mk "u2" "later" "bob.png" "bob" 50;
        Reply.mk "u3" "sooner" EmptyString "cat" 40] /\
     length (Post.replies post') = 3 /\
     Post.likes post' = ["u2"; "u3"] /\
     Post.postedBy post' = "u1" /\
     Post.text post' = "thread" /\
     Post.img post' = None /\
     Post.createdAt post' = 30%Z) /\
  (forall id', id' <> "p3" -> posts r.1 !! id' = posts sample_thread !! id').
Proof.
  intros req r.
  apply (replyToPost_keeps_replies 45 req sample_thread
           (Post.mk "u1" "thread" None ["u2"; "u3"]
              [Reply.mk "u2" "later" "bob.png" "bob" 50;
               Reply.mk "u3" "sooner" EmptyString "cat" 40] 30)); reflexivity.
Defined.

Lemma insert_by_front {A} (key : A -> Z) (cmp : A -> A -> Z) (x : A) (l : list A) :
  (forall a b, cmp a b = (key b - key a)%Z) ->
  Forall (fun y => (key y <= key x)%Z) l ->
  insert_by cmp x l = x :: l.
Proof.
  intros Hcmp Hl. destruct l as [|y l]; [done|]. simpl.
  apply Forall_cons in Hl as [Hy _].
  destruct (Z.ltb_spec 0 (cmp x y)) as [Hlt|]; [|done].
  rewrite Hcmp in Hlt. lia.
Qed.

Lemma js_sort_descending_id {A} (key : A -> Z) (cmp : A -> A -> Z) (l : list A) :
  (forall a b, cmp a b = (key b - key a)%Z) ->
  descending key l -> js_sort cmp l = l.
Proof.
  intros Hcmp. unfold descending. induction 1 as [|x l Hl IH Hx]; [done|].
  change (js_sort cmp (x :: l)) with (insert_by cmp x (js_sort cmp l)).
  rewrite IH. by apply (insert_by_front key).
Qed.

(** X16. With a clock that does not run backwards the sort moves nothing:
    when the replies of the post are newest first and none is later than
    the insertion time, the new reply is the first of the stored replies
    and the earlier ones follow in their order, also when an earlier reply
    has the very same time. *)
Theorem replyToPost_newest_on_top now req w post :
  truthy (Req.text (Req.body req)) = true ->
  posts w !! Req.params_id req = Some post ->
  descending Reply.createdAt (Post.replies post) ->
  Forall (fun r => (Reply.createdAt r <= now)%Z) (Post.replies post) ->
  let new :=
    Reply.mk (Req._id (Req.user req)) (default EmptyString (Req.text (Req.body req)))
      (Req.profilePicture (Req.user req)) (Req.username (Req.user req)) now in
  posts (replyToPost now req w).1 !! Req.params_id req =
    Some (Post.set_replies (new :: Post.replies post) post).
Proof.
  intros Ht Hp Hs Hle new. subst new.
  rewrite (replyToPost_ok now req w post Ht Hp). simpl.
  rewrite lookup_insert_eq. do 2 f_equal.
  apply (js_sort_descending_id Reply.createdAt); [done|].
  by constructor.
Qed.

Lemma replyToPost_newest_on_top_witness :
  posts (replyToPost 50 (text_request "u1" "p3" "tie") sample_thread).1 !! "p3" =
    Some (Post.mk "u1" "thread" None ["u2"; "u3"]
            [Reply.mk "u1" "tie" "ann.png" "ann" 50;
             Reply.mk "u2" "later" "bob.png" "bob" 50;
             Reply.mk "u3" "sooner" EmptyString "cat" 40] 30).
Proof.
  apply (replyToPost_newest_on_top 50 (text_request "u1" "p3" "tie") sample_thread
           (Post.mk "u1" "thread" None ["u2"; "u3"]
              [Reply.mk "u2" "later" "bob.png" "bob" 50;
               Reply.mk "u3" "sooner" EmptyString "cat" 40] 30));
    try reflexivity.
  - unfold descending. repeat constructor; simpl; lia.
  - repeat constructor; simpl; lia.
Defined.

(** ** Listings *)

Lemma getFeedPosts_missing req w :
  users w !! Req._id (Req.user req) = None ->
  getFeedPosts req w = (w, mkResponse 404 (JError "User not found")).
Proof. intros Hu. unfold getFeedPosts. run_handler. by rewrite Hu. Qed.

(** X17. The edges of the feed: a caller without a user record is answered
    404, and a caller who follows nobody gets the empty feed with a 200,
    however many posts are stored. *)
Theorem getFeedPosts_edges req w :
  let r := getFeedPosts req w in
  (users w !! Req._id (Req.user req) = None ->
   r = (w, mkResponse 404 (JError "User not found"))) /\
  (forall user,
     users w !! Req._id (Req.user req) = Some user ->
     User.following user = [] ->
     r = (w, mkResponse 200 (JPosts []))).
Proof.
  intros r. subst r. split; [apply getFeedPosts_missing|].
  intros user Hu Hf. rewrite (getFeedPosts_found req w user Hu), Hf.
  do 3 f_equal.
  induction (map_to_list (posts w)) as [|d l IH]; [done|].
  rewrite filter_cons_False; [done|]. apply not_elem_of_nil.
Qed.

Lemma getUserPosts_run username w :
  getUserPosts username w =
    (w, match head (filter (fun d => User.username d.2 = username)
                      (map_to_list (users w))) with
        | Some user =>
            mkResponse 200
              (JPosts (js_sort createdAt_desc
                         (filter (fun d => Post.postedBy d.2 = user.1)
                            (map_to_list (posts w)))))
        | None => mkResponse 404 (JError "User not found")
        end).
Proof.
  unfold getUserPosts, User_findOne_username, Post_find_postedBy.
  run_handler. by destruct (head _).
Qed.

(** X18. [getUserPosts] answers 404 exactly when no stored user has the
    name asked for.  Otherwise it answers 200 with the posts of a user of
    that name: every stored post of that user once, no other post, sorted
    by [createdAt], newest first.  The world is untouched either way. *)
Theorem getUserPosts_listing username w :
  let r := getUserPosts username w in
  r.1 = w /\
  ((r.2 = mkResponse 404 (JError "User not found") /\
    forall id u, users w !! id = Some u -> User.username u <> username) \/
   (exists id u feed,
      users w !! id = Some u /\ User.username u = username /\
      r.2 = mkResponse 200 (JPosts feed) /\
      (forall pid post,
         (pid, post) ∈ feed <->
         posts w !! pid = Some post /\ Post.postedBy post = id) /\
      NoDup feed /\
      descending (fun d => Post.createdAt d.2) feed)).
Proof.
  intros r. subst r. rewrite getUserPosts_run. split; [done|]. simpl.
  destruct (head _) as [[id u]|] eqn:Hh.
  - right. apply head_Some_elem_of in Hh.
    apply list_elem_of_filter in Hh as [Hname Hin].
    apply elem_of_map_to_list in Hin. simpl in Hname.
    exists id, u. eexists. do 3 (split; [done|]). simpl. split; [|split].
    + intros pid post. rewrite (js_sort_Permutation createdAt_desc).
      rewrite list_elem_of_filter, elem_of_map_to_list. simpl. tauto.
    + rewrite (js_sort_Permutation createdAt_desc).
      apply NoDup_filter, NoDup_map_to_list.
    + apply (js_sort_descending _ _ createdAt_desc_key).
  - left. split; [done|]. intros id u Hu Hname.
    apply head_None in Hh.
    assert ((id, u) ∈ filter (fun d : string * User.t => User.username d.2 = username)
                         (map_to_list (users w))) as Hin.
    { apply list_elem_of_filter. split; [done|]. by apply elem_of_map_to_list. }
    rewrite Hh in Hin. by apply not_elem_of_nil in Hin.
Qed.

(** X19. The feed of a caller who follows exactly one user is the listing
    of that user, when the name of that user is not shared: [getFeedPosts]
    for the follower and [getUserPosts] for the name give the same answer. *)
Theorem feed_of_one_is_listing req w user x ux :
  users w !! Req._id (Req.user req) = Some user ->
  User.following user = [x] ->
  users w !! x = Some ux ->
  (forall id u, users w !! id = Some u ->
                User.username u = User.username ux -> id = x) ->
  getFeedPosts req w = getUserPosts (User.username ux) w.
Proof.
  intros Hu Hf Hx Huniq.
  rewrite (getFeedPosts_found req w user Hu), Hf, getUserPosts_run.
  destruct (head _) as [[id u]|] eqn:Hh.
  - apply head_Some_elem_of in Hh.
    apply list_elem_of_filter in Hh as [Hname Hin].
    apply elem_of_map_to_list in Hin. simpl in Hname.
    rewrite (Huniq id u Hin Hname). simpl. do 4 f_equal.
    apply list_filter_iff. intros d. by rewrite list_elem_of_singleton.
  - apply head_None in Hh.
    assert ((x, ux) ∈ filter (fun d : string * User.t =>
                                User.username d.2 = User.username ux)
                         (map_to_list (users w))) as Hin.
    { apply list_elem_of_filter. split; [done|]. by apply elem_of_map_to_list. }
    rewrite Hh in Hin. by apply not_elem_of_nil in Hin.
Qed.

Lemma feed_of_one_is_listing_witness :
  getFeedPosts (plain_request "u1" EmptyString) sample_world =
  getUserPosts "bob" sample_world.
Proof.
  apply (feed_of_one_is_listing (plain_request "u1" EmptyString) sample_world
           (User.mk "ann" "ann.png" ["u2"]) "u2" (User.mk "bob" "bob.png" []));
    try reflexivity.
  intros id u Hu Hname.
  unfold sample_world, sample_users in Hu. simpl in Hu.
  repeat (apply lookup_insert_Some in Hu as [[<- <-]|[_ Hu]]; [by simplify_eq/=|]).
  apply lookup_singleton_Some in Hu as [<- <-]. by simplify_eq/=.
Defined.

(* The reading handlers return the world they were given. *)
Lemma readers_leave_world req username w :
  (getPost req w).1 = w /\
  (getFeedPosts req w).1 = w /\
  (getUserPosts username w).1 = w.
Proof.
  split; [by rewrite getPost_lookup|]. split; [|by rewrite getUserPosts_run].
  destruct (users w !! Req._id (Req.user req)) as [user|] eqn:Hu.
  - by rewrite (getFeedPosts_found req w user Hu).
  - by rewrite getFeedPosts_missing.
Qed.

(** X20. The three reading handlers never change anything: whatever the
    request, the world after [getPost], [getFeedPosts] and [getUserPosts]
    is the world before, with no write and no call to the blob store
    issued. *)
Theorem reading_changes_nothing req username w :
  (getPost req w).1 = w /\
  (getFeedPosts req w).1 = w /\
  (getUserPosts username w).1 = w.
Proof. apply readers_leave_world. Qed.

(** ** The controller as a whole *)

Lemma likeUnlikePost_change req w :
  Change (Req._id (Req.user req)) (posts w) (posts (likeUnlikePost req w).1).
Proof.
  destruct (posts w !! Req.params_id req) as [post|] eqn:Hp.
  - destruct (decide (Req._id (Req.user req) ∈ Post.likes post)) as [Hin|Hout].
    + rewrite (likeUnlikePost_unlike _ _ _ Hp Hin). by apply Unliked.
    + rewrite (likeUnlikePost_like _ _ _ Hp Hout). by apply Liked.
  - rewrite likeUnlikePost_missing by done. constructor.
Qed.

Lemma replyToPost_change now req w :
  Change (Req._id (Req.user req)) (posts w) (posts (replyToPost now req w).1).
Proof.
  destruct (truthy (Req.text (Req.body req))) eqn:Ht; cycle 1.
  { rewrite replyToPost_empty_text by done. constructor. }
  destruct (posts w !! Req.params_id req) as [post|] eqn:Hp; cycle 1.
  { rewrite replyToPost_missing by done. constructor. }
  rewrite (replyToPost_ok now req w post Ht Hp). simpl.
  apply Replied; [done|done|].
  destruct (truthy_Some _ Ht) as (text & -> & Hne). done.
Qed.

Lemma createPost_change upload now req w :
  Change (Req._id (Req.user req)) (posts w)
    (posts (createPost upload now req w).1).
Proof.
  destruct (createPost_outcome upload now req w)
    as [code msg _ | raw msg _ _ _ | text img w0 id post _ _ Hlen _ _]; simpl;
    try constructor; [apply fresh_post_id|done].
Qed.

Lemma deletePost_change destroy req w :
  Change (Req._id (Req.user req)) (posts w) (posts (deletePost destroy req w).1).
Proof.
  destruct (deletePost_posts destroy req w)
    as [[-> _] | (post & Hp & Hc & -> & _)]; [constructor|].
  by apply (Deleted _ _ _ post).
Qed.

(* The change of the posts under any call. *)
Lemma handle_Change upload destroy c w :
  match caller_of c with
  | Some u => Change u (posts w) (posts (handle upload destroy c w).1)
  | None => posts (handle upload destroy c w).1 = posts w
  end.
Proof.
  destruct c as [now req|req|req|req|now req|req|username]; simpl.
  - apply createPost_change.
  - rewrite (proj1 (readers_leave_world req EmptyString w)). constructor.
  - apply deletePost_change.
  - apply likeUnlikePost_change.
  - apply replyToPost_change.
  - rewrite (proj1 (proj2 (readers_leave_world req EmptyString w))).
    constructor.
  - by rewrite getUserPosts_run.
Qed.

(** X21. Whatever the call, the collection of posts changes in one of five
    ways or not at all: one new post of the caller, without likes and
    replies and with a text of 1 to 500 characters, under an identifier
    that was free; the removal of a post that the caller owns; the caller
    added at the end of the likes of a post that did not have it; the
    caller removed from the likes of a post that had it; one non-empty
    reply of the caller sorted into the replies of a post.  The anonymous
    listing changes nothing. *)
Theorem handle_change upload destroy c w :
  match caller_of c with
  | Some u => Change u (posts w) (posts (handle upload destroy c w).1)
  | None => posts (handle upload destroy c w).1 = posts w
  end.
Proof. apply handle_Change. Qed.

Lemma Change_post_ok (u : string) (ps ps' : gmap string Post.t) :
  Change u ps ps' ->
  (forall id p, ps !! id = Some p -> post_ok p) ->
  forall id p, ps' !! id = Some p -> post_ok p.
Proof.
  intros [ | id0 text img now Hfree Hlen | id0 post Hp Hc | id0 post Hp Hout
           | id0 post Hp Hin | id0 post reply Hp _ _] Hok id p.
  - apply Hok.
  - intros [[<- <-]|[_ ?]]%lookup_insert_Some; [|by eapply Hok].
    split; [constructor|]. split; [constructor|done].
  - intros [_ ?]%lookup_delete_Some. by eapply Hok.
  - intros [[<- <-]|[_ ?]]%lookup_insert_Some; [|by eapply Hok].
    destruct (Hok _ _ Hp) as (Hnd & Hs & Hlen). split; [|done]. simpl.
    apply NoDup_app. split; [done|]. split; [|apply NoDup_singleton].
    by intros x Hx ->%list_elem_of_singleton.
  - intros [[<- <-]|[_ ?]]%lookup_insert_Some; [|by eapply Hok].
    destruct (Hok _ _ Hp) as (Hnd & Hs & Hlen). split; [|done]. simpl.
    by apply NoDup_filter.
  - intros [[<- <-]|[_ ?]]%lookup_insert_Some; [|by eapply Hok].
    destruct (Hok _ _ Hp) as (Hnd & Hs & Hlen). split; [done|]. split; [|done].
    apply (js_sort_descending _ _ newest_first_key).
Qed.

Lemma handle_world_ok upload destroy c w :
  world_ok w -> world_ok (handle upload destroy c w).1.
Proof.
  intros Hok. pose proof (handle_Change upload destroy c w) as Hc.
  destruct (caller_of c) as [u|].
  - unfold world_ok. by eapply Change_post_ok.
  - unfold world_ok. by rewrite Hc.
Qed.

(** X22. The invariants of the data model are kept by every handler: when
    every stored post has likes without duplicates, replies sorted newest
    first and a text of 1 to 500 characters, the same holds after any
    call; hence it holds after any sequence of calls served one after the
    other on a store that starts without posts. *)
Theorem world_ok_kept upload destroy :
  (forall c w, world_ok w -> world_ok (handle upload destroy c w).1) /\
  (forall cs us, world_ok (run upload destroy cs (empty_world us))).
Proof.
  split; [intros; by apply handle_world_ok|].
  intros cs us.
  assert (forall w, world_ok w -> world_ok (run upload destroy cs w)) as Hrun.
  { induction cs as [|c cs IH]; intros w Hw; [done|].
    simpl. by apply IH, handle_world_ok. }
  apply Hrun. intros id p. unfold empty_world. simpl.
  by rewrite lookup_empty.
Qed.

Lemma world_ok_kept_witness :
  world_ok
    (handle sample_upload sample_destroy
       (ReplyToPost 45 (text_request "u1" "p1" "now")) sample_world).1 /\
  world_ok
    (run sample_upload sample_destroy
       [CreatePost 1 (create_request "u1" "u1" "first" None);
        LikeUnlikePost (plain_request "u2" "post");
        ReplyToPost 2 (text_request "u3" "post" "nice")]
       (empty_world sample_users)).
Proof.
  split.
  - apply (proj1 (world_ok_kept sample_upload sample_destroy)).
    intros id p Hp. unfold sample_world, sample_posts in Hp. simpl in Hp.
    apply lookup_insert_Some in Hp as [[<- <-]|[_ Hp]];
      [|apply lookup_singleton_Some in Hp as [<- <-]].
    + split; [constructor|]. split; [constructor|].
      split; apply Nat.leb_le; reflexivity.
    + split; [repeat constructor; set_solver|]. split; [constructor|].
      split; apply Nat.leb_le; reflexivity.
  - apply (proj2 (world_ok_kept sample_upload sample_destroy)).
Defined.

Lemma Change_kept (u : string) (ps ps' : gmap string Post.t) id p p' :
  Change u ps ps' ->
  ps !! id = Some p -> ps' !! id = Some p' ->
  Post.postedBy p' = Post.postedBy p /\ Post.text p' = Post.text p /\
  Post.img p' = Post.img p /\ Post.createdAt p' = Post.createdAt p /\
  (forall r, r ∈ Post.replies p -> r ∈ Post.replies p') /\
  length (Post.replies p) <= length (Post.replies p') /\
  (forall v, v <> u -> v ∈ Post.likes p' <-> v ∈ Post.likes p).
Proof.
  intros [ | id0 text img now Hfree Hlen | id0 post Hp Hc | id0 post Hp Hout
           | id0 post Hp Hin | id0 post reply Hp _ _] Hid.
  - intros ?. by simplify_eq.
  - intros [[<- <-]|[_ ?]]%lookup_insert_Some; by simplify_eq.
  - intros [_ ?]%lookup_delete_Some. by simplify_eq.
  - intros [[<- <-]|[_ ?]]%lookup_insert_Some; [|by simplify_eq].
    simplify_eq. simpl. do 6 (split; [done|]).
    intros v Hv. rewrite elem_of_app, list_elem_of_singleton. tauto.
  - intros [[<- <-]|[_ ?]]%lookup_insert_Some; [|by simplify_eq].
    simplify_eq. simpl. do 6 (split; [done|]).
    intros v Hv. rewrite elem_of_pull. tauto.
  - intros [[<- <-]|[_ ?]]%lookup_insert_Some; [|by simplify_eq].
    simplify_eq. simpl. do 4 (split; [done|]).
    split; [|split; [|done]].
    + intros r Hr. rewrite (js_sort_Permutation newest_first). by right.
    + rewrite (js_sort_Permutation newest_first). simpl. lia.
Qed.

(** X23. While a post stays stored no call changes its owner, its text,
    its image or its creation time; its replies are never removed, only
    added to; and the only user whose membership in its likes can change
    is the caller. *)
Theorem stored_post_kept upload destroy c w id p p' :
  posts w !! id = Some p ->
  posts (handle upload destroy c w).1 !! id = Some p' ->
  Post.postedBy p' = Post.postedBy p /\ Post.text p' = Post.text p /\
  Post.img p' = Post.img p /\ Post.createdAt p' = Post.createdAt p /\
  (forall r, r ∈ Post.replies p -> r ∈ Post.replies p') /\
  length (Post.replies p) <= length (Post.replies p') /\
  (forall v, caller_of c <> Some v -> v ∈ Post.likes p' <-> v ∈ Post.likes p).
Proof.
  intros Hp Hp'. pose proof (handle_Change upload destroy c w) as Hc.
  destruct (caller_of c) as [u|].
  - destruct (Change_kept u _ _ id p p' Hc Hp Hp')
      as (? & ? & ? & ? & ? & ? & Hlikes).
    do 6 (split; [done|]). intros v Hv. apply Hlikes. congruence.
  - rewrite Hc in Hp'. by simplify_eq.
Qed.

Lemma stored_post_kept_witness :
  let c := LikeUnlikePost (plain_request "u1" "p3") in
  let p := Post.mk "u1" "thread" None ["u2"; "u3"]
             [Reply.mk "u2" "later" "bob.png" "bob" 50;
              Reply.mk "u3" "sooner" EmptyString "cat" 40] 30 in
  let p' := Post.set_likes ["u2"; "u3"; "u1"] p in
  Post.postedBy p' = Post.postedBy p /\ Post.text p' = Post.text p /\
  Post.img p' = Post.img p /\ Post.createdAt p' = Post.createdAt p /\
  (forall r, r ∈ Post.replies p -> r ∈ Post.replies p') /\
  length (Post.replies p) <= length (Post.replies p') /\
  (forall v, caller_of c <> Some v -> v ∈ Post.likes p' <-> v ∈ Post.likes p).
Proof.
  intros c p p'.
  apply (stored_post_kept sample_upload sample_destroy c sample_thread "p3");
    reflexivity.
Defined.

Lemma insert_keeps {A} (m : gmap string A) (i j : string) (x y : A) :
  m !! j = Some y -> is_Some (<[i := x]> m !! j).
Proof.
  intros Hj. destruct (decide (i = j)) as [->|Hne].
  - rewrite lookup_insert_eq. by eexists.
  - rewrite lookup_insert_ne by done. by eexists.
Qed.

(** X24. A stored post can only disappear through [deletePost], called
    for that very post by its owner and answered 200; no other handler and
    no other caller ever removes a post. *)
Theorem post_removed_only_by_owner upload destroy c w id p :
  posts w !! id = Some p ->
  posts (handle upload destroy c w).1 !! id = None ->
  exists req,
    c = DeletePost req /\
    Req.params_id req = id /\
    Req._id (Req.user req) = Post.postedBy p /\
    status (handle upload destroy c w).2 = 200.
Proof.
  intros Hp Hgone.
  destruct c as [now req|req|req|req|now req|req|username]; simpl in *.
  - exfalso.
    destruct (createPost_outcome upload now req w)
      as [code msg _ | raw msg _ _ _ | text img w0 id0 post _ _ _ _ _];
      simpl in Hgone; try congruence.
    destruct (insert_keeps (posts w) id0 id post p Hp) as [? ?]. congruence.
  - rewrite getPost_lookup in Hgone. simpl in Hgone. congruence.
  - exists req. split; [done|].
    destruct (deletePost_frame destroy req w) as (Hother & Hown & _).
    destruct (decide (id = Req.params_id req)) as [->|Hne].
    + split; [done|]. destruct (Hown p Hp Hgone). by split.
    + rewrite Hother in Hgone by done. congruence.
  - exfalso. pose proof (likeUnlikePost_cases req w) as H. simpl in H.
    destruct (posts w !! Req.params_id req) as [post|] eqn:Hq.
    + destruct H as (likes' & Heq & _). rewrite Heq in Hgone.
      destruct (insert_keeps (posts w) (Req.params_id req) id
                  (Post.set_likes likes' post) p Hp) as [? ?]. congruence.
    + rewrite H in Hgone. simpl in Hgone. congruence.
  - exfalso.
    destruct (truthy (Req.text (Req.body req))) eqn:Ht; cycle 1.
    { rewrite replyToPost_empty_text in Hgone by done. simpl in *. congruence. }
    destruct (posts w !! Req.params_id req) as [post|] eqn:Hq; cycle 1.
    { rewrite replyToPost_missing in Hgone by done. simpl in *. congruence. }
    rewrite (replyToPost_ok now req w post Ht Hq) in Hgone. simpl in Hgone.
    match type of Hgone with
    | <[_ := ?x]> _ !! _ = None =>
        destruct (insert_keeps (posts w) (Req.params_id req) id x p Hp) as [? ?]
    end. congruence.
  - rewrite (proj1 (proj2 (readers_leave_world req EmptyString w))) in Hgone.
    congruence.
  - rewrite getUserPosts_run in Hgone. simpl in Hgone. congruence.
Qed.

Lemma post_removed_only_by_owner_witness :
  exists req,
    DeletePost (plain_request "u2" "p2") = DeletePost req /\
    Req.params_id req = "p2" /\
    Req._id (Req.user req) = "u2" /\
    status (handle sample_upload sample_destroy
              (DeletePost (plain_request "u2" "p2")) sample_world).2 = 200.
Proof.
  apply (post_removed_only_by_owner sample_upload sample_destroy
           (DeletePost (plain_request "u2" "p2")) sample_world "p2"
           (Post.mk "u2" "look"
              (Some "https://res.cloudinary.com/demo/image/upload/v1/abc123.jpg")
              ["u1"] [] 20)); reflexivity.
Defined.

(** X25. No call touches the users, and the trace only grows.  The blob
    store is called by two handlers only: an upload is issued by
    [createPost] alone, for the image of the request; an object is
    destroyed by [deletePost] alone, called by the owner of a stored post,
    and the object is the one named by the image of that post. *)
Theorem handle_effects upload destroy c w :
  let w' := (handle upload destroy c w).1 in
  users w' = users w /\
  exists evs,
    trace w' = (trace w ++ evs)%list /\
    (forall file, CloudUpload file ∈ evs ->
       exists now req,
         c = CreatePost now req /\ Req.img (Req.body req) = Some file) /\
    (forall public_id, CloudDestroy public_id ∈ evs ->
       exists req post url,
         c = DeletePost req /\
         posts w !! Req.params_id req = Some post /\
         Post.postedBy post = Req._id (Req.user req) /\
         Post.img post = Some url /\
         public_id = imgId url).
Proof.
  assert (forall e : Effect, e ∈ [] -> False) as Hnil
    by (intros e He; by apply not_elem_of_nil in He).
  assert (forall w0 : World, trace w0 = (trace w0 ++ [])%list) as Hno
    by (intros; by rewrite app_nil_r).
  destruct c as [now req|req|req|req|now req|req|username]; simpl.
  - destruct (createPost_outcome upload now req w)
      as [code msg _ | raw msg Hraw _ _ | text img w0 id post _ _ _ _ Hw0]; simpl.
    + split; [done|]. exists []. split; [done|]. split; intros ? []%Hnil.
    + split; [done|]. eexists. split; [done|].
      split; intros ? He%list_elem_of_singleton; [|done].
      injection He as ->. by exists now, req.
    + destruct Hw0 as [(_ & _ & ->) | (raw & url & Hraw & _ & _ & _ & ->)]; simpl.
      * split; [done|]. eexists. split; [done|].
        split; by intros ? He%list_elem_of_singleton.
      * split; [done|]. exists [CloudUpload raw; PostSave id].
        split; [by rewrite <- app_assoc|].
        split; intros ? He; rewrite !elem_of_cons in He;
          destruct He as [He|[He|[]%Hnil]]; try done.
        injection He as ->. by exists now, req.
  - rewrite getPost_lookup. simpl. split; [done|]. exists [].
    split; [done|]. split; intros ? []%Hnil.
  - destruct (posts w !! Req.params_id req) as [post|] eqn:Hp; cycle 1.
    { rewrite deletePost_missing by done. simpl. split; [done|]. exists [].
      split; [done|]. split; intros ? []%Hnil. }
    destruct (decide (Req._id (Req.user req) = Post.postedBy post)) as [Hc|Hc];
      cycle 1.
    { rewrite (deletePost_unauthorized destroy req w post) by done. simpl.
      split; [done|]. exists []. split; [done|]. split; intros ? []%Hnil. }
    rewrite (deletePost_owner destroy req w post Hp Hc).
    destruct (truthy (Post.img post)) eqn:Hi; simpl; cycle 1.
    { split; [done|]. eexists. split; [done|].
      split; by intros ? He%list_elem_of_singleton. }
    destruct (truthy_Some _ Hi) as (url & Hurl & _). rewrite Hurl. simpl.
    destruct (destroy (imgId url)); simpl.
    + split; [done|]. exists [CloudDestroy (imgId url); PostDelete (Req.params_id req)].
      split; [by rewrite <- app_assoc|].
      split; intros ? He; rewrite !elem_of_cons in He;
        destruct He as [He|[He|[]%Hnil]]; try done.
      injection He as ->. by exists req, post, url.
    + split; [done|]. eexists. split; [done|].
      split; intros ? He%list_elem_of_singleton; [done|].
      injection He as ->. by exists req, post, url.
  - destruct (posts w !! Req.params_id req) as [post|] eqn:Hp; cycle 1.
    { rewrite likeUnlikePost_missing by done. simpl. split; [done|]. exists [].
      split; [done|]. split; intros ? []%Hnil. }
    destruct (decide (Req._id (Req.user req) ∈ Post.likes post)) as [Hin|Hout].
    + rewrite (likeUnlikePost_unlike _ _ _ Hp Hin). simpl.
      split; [done|]. eexists. split; [done|].
      split; by intros ? He%list_elem_of_singleton.
    + rewrite (likeUnlikePost_like _ _ _ Hp Hout). simpl.
      split; [done|]. eexists. split; [done|].
      split; by intros ? He%list_elem_of_singleton.
  - destruct (truthy (Req.text (Req.body req))) eqn:Ht; cycle 1.
    { rewrite replyToPost_empty_text by done. simpl. split; [done|]. exists [].
      split; [done|]. split; intros ? []%Hnil. }
    destruct (posts w !! Req.params_id req) as [post|] eqn:Hq; cycle 1.
    { rewrite replyToPost_missing by done. simpl. split; [done|]. exists [].
      split; [done|]. split; intros ? []%Hnil. }
    rewrite (replyToPost_ok now req w post Ht Hq). simpl.
    split; [done|]. eexists. split; [done|].
    split; by intros ? He%list_elem_of_singleton.
  - rewrite (proj1 (proj2 (readers_leave_world req EmptyString w))).
    split; [done|]. exists []. split; [done|]. split; intros ? []%Hnil.
  - rewrite getUserPosts_run. simpl.
    split; [done|]. exists []. split; [done|]. split; intros ? []%Hnil.
Qed.

(** ** How the handlers compose *)

Lemma createPost_201 upload now req w id post :
  (createPost upload now req w).2 = mkResponse 201 (JPost id post) ->
  posts w !! id = None /\
  posts (createPost upload now req w).1 = <[id := post]> (posts w) /\
  users (createPost upload now req w).1 = users w /\
  Post.postedBy post = Req._id (Req.user req).
Proof.
  destruct (createPost_outcome upload now req w)
    as [code msg _ | raw msg _ _ _ | text img w0 id0 post0 _ _ _ _ Hw0];
    simpl; intros Hr; try discriminate.
  injection Hr as <- <-. split; [apply fresh_post_id|]. split; [done|].
  split; [|done].
  by destruct Hw0 as [(_ & _ & ->) | (? & ? & _ & _ & _ & _ & ->)].
Qed.

(** X26. Creating a post and then deleting it gives back the collection
    of posts as it was: when [createPost] answers 201 and the same caller
    deletes the returned identifier, with the blob store accepting the
    removal of the image if there is one, [deletePost] answers 200 and the
    stored posts are those from before the creation. *)
Theorem create_then_deletePost upload destroy now req w req' id post :
  (createPost upload now req w).2 = mkResponse 201 (JPost id post) ->
  Req.params_id req' = id ->
  Req._id (Req.user req') = Req._id (Req.user req) ->
  (forall url, Post.img post = Some url ->
               exists u, destroy (imgId url) = Fulfilled u) ->
  let w1 := (createPost upload now req w).1 in
  let r := deletePost destroy req' w1 in
  status r.2 = 200 /\ posts r.1 = posts w.
Proof.
  intros Hr Hid Hu Hd w1 r. subst w1 r.
  destruct (createPost_201 _ _ _ _ _ _ Hr) as (Hfree & Hposts & _ & Hown).
  assert (posts (createPost upload now req w).1 !! Req.params_id req' = Some post)
    as Hp by (by rewrite Hposts, Hid, lookup_insert_eq).
  rewrite (deletePost_owner destroy req' _ post Hp) by congruence.
  rewrite Hposts, Hid.
  destruct (truthy (Post.img post)) eqn:Hi; simpl.
  - destruct (truthy_Some _ Hi) as (url & Hurl & _). rewrite Hurl. simpl.
    destruct (Hd url Hurl) as [u ->]. simpl.
    by rewrite delete_insert_eq, delete_id.
  - by rewrite delete_insert_eq, delete_id.
Qed.

Lemma create_then_deletePost_witness :
  let req := create_request "u1" "u1" "hello" (Some "raw") in
  let post :=
    Post.mk "u1" "hello"
      (Some "https://res.cloudinary.com/demo/image/upload/v1/raw.jpg") [] [] 30 in
  let w1 := (createPost sample_upload 30 req sample_world).1 in
  let r := deletePost sample_destroy (plain_request "u1" "post") w1 in
  status r.2 = 200 /\ posts r.1 = posts sample_world.
Proof.
  intros req post w1 r.
  apply (create_then_deletePost sample_upload sample_destroy 30 req sample_world
           (plain_request "u1" "post") "post" post); try reflexivity.
  intros url [= <-]. by eexists.
Defined.

(** X27. A created post reaches the followers: when [createPost] answers
    201, the feed of every stored user who follows the caller contains the
    new post under its identifier. *)
Theorem created_post_in_feed upload now req w reqf id post follower :
  (createPost upload now req w).2 = mkResponse 201 (JPost id post) ->
  users w !! Req._id (Req.user reqf) = Some follower ->
  Req._id (Req.user req) ∈ User.following follower ->
  let w1 := (createPost upload now req w).1 in
  exists feed,
    getFeedPosts reqf w1 = (w1, mkResponse 200 (JPosts feed)) /\
    (id, post) ∈ feed.
Proof.
  intros Hr Hf Hin w1. subst w1.
  destruct (createPost_201 _ _ _ _ _ _ Hr) as (_ & Hposts & Husers & Hown).
  rewrite <- Husers in Hf.
  eexists. split; [by apply getFeedPosts_found|].
  rewrite (js_sort_Permutation createdAt_desc).
  apply list_elem_of_filter. simpl. split; [by rewrite Hown|].
  apply elem_of_map_to_list. by rewrite Hposts, lookup_insert_eq.
Qed.

Lemma created_post_in_feed_witness :
  let req := create_request "u1" "u1" "hello" None in
  let w1 := (createPost sample_upload 30 req sample_world).1 in
  exists feed,
    getFeedPosts (plain_request "u3" EmptyString) w1 =
      (w1, mkResponse 200 (JPosts feed)) /\
    ("post", Post.mk "u1" "hello" None [] [] 30) ∈ feed.
Proof.
  intros req w1.
  apply (created_post_in_feed sample_upload 30 req sample_world
           (plain_request "u3" EmptyString) "post"
           (Post.mk "u1" "hello" None [] [] 30)
           (User.mk "cat" EmptyString ["u1"; "u2"])); try reflexivity.
  apply list_elem_of_here.
Defined.

(** X28. A deleted post is in no listing any more: after a [deletePost]
    answered 200, neither the feed of any caller nor the listing of any
    user shows a post under the deleted identifier. *)
Theorem deleted_post_in_no_listing destroy req w reqf username feed p :
  status (deletePost destroy req w).2 = 200 ->
  let w1 := (deletePost destroy req w).1 in
  json (getFeedPosts reqf w1).2 = JPosts feed \/
  json (getUserPosts username w1).2 = JPosts feed ->
  (Req.params_id req, p) ∉ feed.
Proof.
  intros Hst w1 Hfeed Hin.
  assert (posts w1 !! Req.params_id req = None) as Hgone.
  { by apply (deletePost_frame destroy req w). }
  assert (exists P (HP : forall d, Decision (P d)),
             feed = js_sort createdAt_desc
                      (filter P (map_to_list (posts w1)))) as (P & HP & ->).
  { destruct Hfeed as [Hfeed|Hfeed].
    - destruct (users w1 !! Req._id (Req.user reqf)) as [user|] eqn:Hu.
      + rewrite (getFeedPosts_found reqf w1 user Hu) in Hfeed.
        injection Hfeed as <-. by eexists _, _.
      + by rewrite getFeedPosts_missing in Hfeed.
    - rewrite getUserPosts_run in Hfeed. simpl in Hfeed.
      destruct (head _); [|done]. injection Hfeed as <-. by eexists _, _. }
  rewrite (js_sort_Permutation createdAt_desc) in Hin.
  apply list_elem_of_filter in Hin as [_ Hin].
  apply elem_of_map_to_list in Hin. congruence.
Qed.

Lemma deleted_post_in_no_listing_witness :
  ("p2", Post.mk "u2" "look"
           (Some "https://res.cloudinary.com/demo/image/upload/v1/abc123.jpg")
           ["u1"] [] 20) ∉
    [("p1", Post.mk "u1" "hello" None [] [] 10)].
Proof.
  apply (deleted_post_in_no_listing sample_destroy (plain_request "u2" "p2")
           sample_world (plain_request "u3" EmptyString) "bob");
    [reflexivity|]. left. reflexivity.
Defined.
